(** * Supply invariants of the supply keeper (x/supply/keeper/invariants.go)

    The file embeds the three checks of the supply module,
    [SupplierInvariants], [TotalSupplyInvariant] and [AllInvariants], and
    proves what the specification says about them.  The checks read a
    snapshot of the chain state through keepers; the coin arithmetic they
    call lives in the [sdk] package. *)

From Stdlib Require Import ZArith List String Ascii Bool Lia Permutation.
From Stdlib Require Import OrderedTypeEx.
Import ListNotations.

Open Scope Z_scope.

(** ** Package sdk: coin vectors *)

Module sdk.

(** Modelled from the spec: the coin types of package [sdk] (types/coin.go,
    types/dec_coin.go) are missing.  A coin is a denomination paired with
    an arbitrary-precision integer amount. *)
Record Coin : Type := NewCoin { Denom : string; Amount : Z }.

(** Modelled from the spec: a Coin Vector is an ordered-by-denomination
    mapping from denomination to amount, kept as the list of its entries. *)
Definition Coins : Type := list Coin.

Definition Coin_IsZero (c : Coin) : bool := Amount c =? 0.

Definition Coin_IsEqual (a b : Coin) : bool :=
  String.eqb (Denom a) (Denom b) && (Amount a =? Amount b).

(** [appendNonZero c cs] puts [c] in front of [cs] unless its amount is
    zero: no zero entry persists in a Coin Vector. *)
Definition appendNonZero (c : Coin) (cs : Coins) : Coins :=
  if Coin_IsZero c then cs else c :: cs.

Fixpoint removeZeroCoins (cs : Coins) : Coins :=
  match cs with
  | [] => []
  | c :: rest => appendNonZero c (removeZeroCoins rest)
  end.

(** Modelled from the spec: [NewCoins] builds the Coin Vector of one coin
    (the only way the invariants call it); a zero coin gives the empty
    vector. *)
Definition NewCoins (c : Coin) : Coins := removeZeroCoins [c].

(** Modelled from the spec: the Coin Vector invariant.  Denominations are
    strictly increasing and every amount is positive. *)
Fixpoint sortedFrom (d : string) (cs : Coins) : bool :=
  match cs with
  | [] => true
  | c :: rest =>
      match String.compare d (Denom c) with
      | Lt => sortedFrom (Denom c) rest
      | _ => false
      end
  end.

Definition sorted (cs : Coins) : bool :=
  match cs with
  | [] => true
  | c :: rest => sortedFrom (Denom c) rest
  end.

Definition IsValid (cs : Coins) : bool :=
  sorted cs && forallb (fun c => 0 <? Amount c) cs.

(** The amount a vector holds of one denomination: the sum over its entries
    of that denomination. *)
Fixpoint AmountOf (denom : string) (cs : Coins) : Z :=
  match cs with
  | [] => 0
  | c :: rest =>
      (if String.eqb (Denom c) denom then Amount c else 0) + AmountOf denom rest
  end.

Definition nonZero (cs : Coins) : bool :=
  forallb (fun c => negb (Coin_IsZero c)) cs.

Definition Coin_eq_dec (a b : Coin) : {a = b} + {a <> b}.
Proof.
  decide equality; [apply Z.eq_dec | apply string_dec].
Defined.

Definition Coins_eq_dec (a b : Coins) : {a = b} + {a <> b} :=
  list_eq_dec Coin_eq_dec a b.

Module Coins.

(** Modelled from the spec: addition is per denomination; the two ordered
    vectors are merged, amounts of a common denomination are summed, and
    zero results are dropped. *)
Fixpoint Add (coins : Coins) : Coins -> Coins :=
  fix addB (coinsB : Coins) : Coins :=
    match coins, coinsB with
    | [], _ => removeZeroCoins coinsB
    | _, [] => removeZeroCoins coins
    | coinA :: restA, coinB :: restB =>
        match String.compare (Denom coinA) (Denom coinB) with
        | Lt => appendNonZero coinA (Add restA coinsB)
        | Eq => appendNonZero
                  (NewCoin (Denom coinA) (Amount coinA + Amount coinB))
                  (Add restA restB)
        | Gt => appendNonZero coinB (addB restB)
        end
    end.

(** Modelled from the spec: equality of Coin Vectors is structural, the
    same denominations with the same amounts, entry by entry. *)
Fixpoint IsEqual (coins coinsB : Coins) : bool :=
  match coins, coinsB with
  | [], [] => true
  | a :: restA, b :: restB => Coin_IsEqual a b && IsEqual restA restB
  | _, _ => false
  end.

End Coins.

(** Modelled from the spec: a fractional amount is a fixed-point number.
    It is kept as the integer count of its smallest fraction, [OneDec] of
    which make one whole unit (eighteen fractional digits). *)
Definition Dec : Type := Z.

Definition Precision : Z := 18.

Definition OneDec : Dec := 10 ^ Precision.

(** [NewDecWithPrec i prec] is the fixed-point number [i / 10^prec]. *)
Definition NewDecWithPrec (i prec : Z) : Dec := i * 10 ^ (Precision - prec).

Record DecCoin : Type := NewDecCoinFromDec { DecDenom : string; DecAmount : Dec }.

(** Modelled from the spec: a Fractional Coin Vector is like a Coin Vector,
    with fixed-point amounts. *)
Definition DecCoins : Type := list DecCoin.

(** Modelled from the spec: truncation splits an amount into its whole
    units and a remainder of magnitude below one unit, the two adding up to
    the amount exactly. *)
Definition DecCoin_TruncateDecimal (coin : DecCoin) : Coin * DecCoin :=
  let truncated := Z.quot (DecAmount coin) OneDec in
  let change := DecAmount coin - truncated * OneDec in
  (NewCoin (DecDenom coin) truncated, NewDecCoinFromDec (DecDenom coin) change).

Definition appendNonZeroDec (c : DecCoin) (cs : DecCoins) : DecCoins :=
  if DecAmount c =? 0 then cs else c :: cs.

Fixpoint removeZeroDecCoins (cs : DecCoins) : DecCoins :=
  match cs with
  | [] => []
  | c :: rest => appendNonZeroDec c (removeZeroDecCoins rest)
  end.

Module DecCoins.

(** Modelled from the spec: addition merges the two ordered vectors per
    denomination, as for Coin Vectors. *)
Fixpoint Add (coins : DecCoins) : DecCoins -> DecCoins :=
  fix addB (coinsB : DecCoins) : DecCoins :=
    match coins, coinsB with
    | [], _ => removeZeroDecCoins coinsB
    | _, [] => removeZeroDecCoins coins
    | coinA :: restA, coinB :: restB =>
        match String.compare (DecDenom coinA) (DecDenom coinB) with
        | Lt => appendNonZeroDec coinA (Add restA coinsB)
        | Eq => appendNonZeroDec
                  (NewDecCoinFromDec (DecDenom coinA)
                     (DecAmount coinA + DecAmount coinB))
                  (Add restA restB)
        | Gt => appendNonZeroDec coinB (addB restB)
        end
    end.

(** Modelled from the spec: truncating a vector truncates every entry; the
    whole parts form a Coin Vector and the remainders a Fractional Coin
    Vector, zero entries left out of both. *)
Fixpoint TruncateDecimal (coins : DecCoins) : Coins * DecCoins :=
  match coins with
  | [] => ([], [])
  | coin :: rest =>
      let (truncated, change) := DecCoin_TruncateDecimal coin in
      let (out, changeSum) := TruncateDecimal rest in
      (appendNonZero truncated out, appendNonZeroDec change changeSum)
  end.

End DecCoins.

End sdk.

(** ** Package auth: accounts *)

Module auth.

(** An account is seen through interfaces.  Every account holds coins;
    the two type assertions of the aggregation, on [VestingAccount] and on
    [ModuleAccount], succeed or fail independently of each other. *)
Record VestingAccount : Type := {
  GetOriginalVesting : sdk.Coins;
  GetEndTime : Z
}.

Record Account : Type := {
  GetCoins : sdk.Coins;
  asVestingAccount : option VestingAccount;
  isModuleAccount : bool
}.

End auth.

(** ** Package keeper: the invariants *)

Module keeper.

Import sdk.

Record Supplier : Type := {
  CirculatingSupply : Coins;
  ModulesSupply : Coins;
  InitialVestingSupply : Coins;
  TotalSupply : Coins
}.

(** The snapshot a check reads: the block time of the header, and what the
    keepers hand out (accounts in iteration order, the supplier record, the
    staking, fee-collection and distribution pools). *)
Record Context : Type := {
  BlockTime : Z;
  accounts : list auth.Account;
  supplier : Supplier;
  bondDenom : string;
  totalBondedTokens : Z;
  collectedFees : Coins;
  feePoolCommunityCoins : DecCoins;
  totalRewards : DecCoins
}.

(** Keeper calls are the only effects of a check.  A computation returns
    its value together with the keeper calls it made, in order. *)
Inductive KeeperCall : Type :=
| CallGetSupplier
| CallIterateAccounts
| CallBondDenom
| CallTotalBondedTokens
| CallGetCollectedFees
| CallGetFeePoolCommunityCoins
| CallGetTotalRewards.

Definition Traced (A : Type) : Type := (A * list KeeperCall)%type.

Definition ret {A : Type} (a : A) : Traced A := (a, []).

Definition bind {A B : Type} (m : Traced A) (f : A -> Traced B) : Traced B :=
  let (a, t1) := m in
  let (b, t2) := f a in
  (b, t1 ++ t2).

Definition call {A : Type} (c : KeeperCall) (a : A) : Traced A := (a, [c]).

Notation "x <- m ;; k" := (bind m (fun x => k))
  (at level 61, m at next level, right associativity).

Definition GetSupplier (ctx : Context) : Traced Supplier :=
  call CallGetSupplier (supplier ctx).

Definition BondDenom (ctx : Context) : Traced string :=
  call CallBondDenom (bondDenom ctx).

Definition TotalBondedTokens (ctx : Context) : Traced Z :=
  call CallTotalBondedTokens (totalBondedTokens ctx).

Definition GetCollectedFees (ctx : Context) : Traced Coins :=
  call CallGetCollectedFees (collectedFees ctx).

Definition GetFeePoolCommunityCoins (ctx : Context) : Traced DecCoins :=
  call CallGetFeePoolCommunityCoins (feePoolCommunityCoins ctx).

Definition GetTotalRewards (ctx : Context) : Traced DecCoins :=
  call CallGetTotalRewards (totalRewards ctx).

(** Modelled from the spec: the account-iteration primitive yields each
    account record once, in store order, and stops early when the callback
    asks for it by returning [true].  The callback is a closure over local
    variables; their values are threaded as the state [St]. *)
Fixpoint iterate {St : Type} (process : St -> auth.Account -> St * bool)
    (accs : list auth.Account) (st : St) : St :=
  match accs with
  | [] => st
  | acc :: rest =>
      let (st', stop) := process st acc in
      if stop then st' else iterate process rest st'
  end.

Definition IterateAccounts {St : Type} (ctx : Context)
    (process : St -> auth.Account -> St * bool) (st : St) : Traced St :=
  call CallIterateAccounts (iterate process (accounts ctx) st).

(** An error is [None] for nil, or the format and the arguments handed to
    [fmt.Errorf]. *)
Record Error : Type := Errorf { format : string; args : list Coins }.

Definition error : Type := option Error.

Definition Invariant : Type := Context -> Traced error.

Definition nl : string := String (ascii_of_nat 10) EmptyString.
Definition tab : string := String (ascii_of_nat 9) EmptyString.

(** The three local variables of [SupplierInvariants] that the iteration
    callback updates. *)
Record Amounts : Type := {
  circulatingAmount : Coins;
  modulesAmount : Coins;
  initialVestingAmount : Coins
}.

(** The callback handed to [IterateAccounts]. *)
Definition process (ctx : Context) (st : Amounts) (acc : auth.Account)
    : Amounts * bool :=
  let initialVestingAmount' :=
    match auth.asVestingAccount acc with
    | Some vacc =>
        if BlockTime ctx <? auth.GetEndTime vacc
        then Coins.Add (initialVestingAmount st) (auth.GetOriginalVesting vacc)
        else initialVestingAmount st
    | None => initialVestingAmount st
    end in
  let st' :=
    if auth.isModuleAccount acc
    then {| circulatingAmount := circulatingAmount st;
            modulesAmount := Coins.Add (modulesAmount st) (auth.GetCoins acc);
            initialVestingAmount := initialVestingAmount' |}
    else {| circulatingAmount := Coins.Add (circulatingAmount st) (auth.GetCoins acc);
            modulesAmount := modulesAmount st;
            initialVestingAmount := initialVestingAmount' |} in
  (st', false).

Definition noAmounts : Amounts :=
  {| circulatingAmount := []; modulesAmount := []; initialVestingAmount := [] |}.

Definition circulatingFormat : string :=
  "circulating supply invariance:" ++ nl ++
  tab ++ "supplier.CirculatingSupply: %v" ++ nl ++
  tab ++ "sum of circulating tokens: %v".

Definition modulesFormat : string :=
  "modules holdings supply invariance:" ++ nl ++
  tab ++ "supplier.ModulesSupply: %v" ++ nl ++
  tab ++ "sum of modules accounts tokens: %v".

Definition vestingFormat : string :=
  "vesting supply invariance:" ++ nl ++
  tab ++ "supplier.InitialVestingSupply: %v" ++ nl ++
  tab ++ "sum of vesting tokens: %v".

Definition totalFormat : string :=
  "total supply invariance:" ++ nl ++
  tab ++ "supplier.TotalSupply: %v" ++ nl ++
  tab ++ "calculated total supply: %v".

Definition SupplierInvariants : Invariant := fun ctx =>
  supplier <- GetSupplier ctx ;;
  sums <- IterateAccounts ctx (process ctx) noAmounts ;;
  if negb (Coins.IsEqual (CirculatingSupply supplier) (circulatingAmount sums))
  then ret (Some (Errorf circulatingFormat
                    [CirculatingSupply supplier; circulatingAmount sums]))
  else if negb (Coins.IsEqual (ModulesSupply supplier) (modulesAmount sums))
  then ret (Some (Errorf modulesFormat
                    [ModulesSupply supplier; modulesAmount sums]))
  else if negb (Coins.IsEqual (InitialVestingSupply supplier)
                  (initialVestingAmount sums))
  then ret (Some (Errorf vestingFormat
                    [InitialVestingSupply supplier; initialVestingAmount sums]))
  else ret None.

(** The value the code calls [realTotalSupply], from what the keepers
    returned. *)
Definition realTotalSupply (supplier : Supplier) (bondedSupply collectedFees : Coins)
    (communityPool totalRewards remaining : Coins) : Coins :=
  Coins.Add (Coins.Add (Coins.Add (Coins.Add (Coins.Add (Coins.Add
    (CirculatingSupply supplier)
    (ModulesSupply supplier))
    bondedSupply)
    collectedFees)
    communityPool)
    totalRewards)
    remaining.

Definition TotalSupplyInvariant : Invariant := fun ctx =>
  supplier <- GetSupplier ctx ;;
  denom <- BondDenom ctx ;;
  bonded <- TotalBondedTokens ctx ;;
  let bondedSupply := NewCoins (NewCoin denom bonded) in
  collectedFees <- GetCollectedFees ctx ;;
  community <- GetFeePoolCommunityCoins ctx ;;
  let (communityPool, remainingCommunityPool) := DecCoins.TruncateDecimal community in
  rewards <- GetTotalRewards ctx ;;
  let (totalRewards, remainingRewards) := DecCoins.TruncateDecimal rewards in
  let (remaining, _) :=
    DecCoins.TruncateDecimal (DecCoins.Add remainingCommunityPool remainingRewards) in
  let realTotalSupply :=
    realTotalSupply supplier bondedSupply collectedFees communityPool totalRewards remaining in
  if negb (Coins.IsEqual (TotalSupply supplier) realTotalSupply)
  then ret (Some (Errorf totalFormat [TotalSupply supplier; realTotalSupply]))
  else ret None.

Definition AllInvariants : Invariant := fun ctx =>
  err <- SupplierInvariants ctx ;;
  match err with
  | Some _ => ret err
  | None =>
      err <- TotalSupplyInvariant ctx ;;
      match err with
      | Some _ => ret err
      | None => ret None
      end
  end.

(** *** Quantities the properties are stated with *)

(** The three sums the iteration leaves in the local variables. *)
Definition aggregate (ctx : Context) : Amounts :=
  iterate (process ctx) (accounts ctx) noAmounts.

(** The reconstructed total as the specification words it: circulating and
    module supply of the record, bonded stake, collected fees, the whole
    parts of the community pool and of the pending rewards, and the whole
    part of the two remainders added up. *)
Definition reconstructed (ctx : Context) : Coins :=
  let bonded := NewCoins (NewCoin (bondDenom ctx) (totalBondedTokens ctx)) in
  let fees := collectedFees ctx in
  let communityWhole := fst (DecCoins.TruncateDecimal (feePoolCommunityCoins ctx)) in
  let communityRemainder := snd (DecCoins.TruncateDecimal (feePoolCommunityCoins ctx)) in
  let rewardsWhole := fst (DecCoins.TruncateDecimal (totalRewards ctx)) in
  let rewardsRemainder := snd (DecCoins.TruncateDecimal (totalRewards ctx)) in
  let carry :=
    fst (DecCoins.TruncateDecimal (DecCoins.Add communityRemainder rewardsRemainder)) in
  Coins.Add (Coins.Add (Coins.Add (Coins.Add (Coins.Add (Coins.Add
    (CirculatingSupply (supplier ctx))
    (ModulesSupply (supplier ctx)))
    bonded)
    fees)
    communityWhole)
    rewardsWhole)
    carry.

(** The sum of the holdings of a population, account after account. *)
Definition holdingsSum (accs : list auth.Account) : Coins :=
  fold_left (fun sum acc => Coins.Add sum (auth.GetCoins acc)) accs [].

(** An account whose coin vectors satisfy the Coin Vector invariant. *)
Definition validAccount (acc : auth.Account) : bool :=
  IsValid (auth.GetCoins acc) &&
  match auth.asVestingAccount acc with
  | Some vacc => IsValid (auth.GetOriginalVesting vacc)
  | None => true
  end.

(** The same snapshot with another account population, or another
    supplier record. *)
Definition withAccounts (ctx : Context) (accs : list auth.Account) : Context :=
  {| BlockTime := BlockTime ctx;
     accounts := accs;
     supplier := supplier ctx;
     bondDenom := bondDenom ctx;
     totalBondedTokens := totalBondedTokens ctx;
     collectedFees := collectedFees ctx;
     feePoolCommunityCoins := feePoolCommunityCoins ctx;
     totalRewards := totalRewards ctx |}.

Definition withSupplier (ctx : Context) (s : Supplier) : Context :=
  {| BlockTime := BlockTime ctx;
     accounts := accounts ctx;
     supplier := s;
     bondDenom := bondDenom ctx;
     totalBondedTokens := totalBondedTokens ctx;
     collectedFees := collectedFees ctx;
     feePoolCommunityCoins := feePoolCommunityCoins ctx;
     totalRewards := totalRewards ctx |}.

(** What one account adds, per denomination, to each of the three sums. *)
Definition circulatingOf (d : string) (acc : auth.Account) : Z :=
  if auth.isModuleAccount acc then 0 else AmountOf d (auth.GetCoins acc).

Definition modulesOf (d : string) (acc : auth.Account) : Z :=
  if auth.isModuleAccount acc then AmountOf d (auth.GetCoins acc) else 0.

Definition vestingOf (blockTime : Z) (d : string) (acc : auth.Account) : Z :=
  match auth.asVestingAccount acc with
  | Some vacc =>
      if blockTime <? auth.GetEndTime vacc
      then AmountOf d (auth.GetOriginalVesting vacc)
      else 0
  | None => 0
  end.

Definition sumOver (f : auth.Account -> Z) (accs : list auth.Account) : Z :=
  fold_right (fun acc z => f acc + z) 0 accs.

(** The Coin Vector invariant on the three sums. *)
Definition sortedAmounts (st : Amounts) : bool :=
  sorted (circulatingAmount st) && sorted (modulesAmount st) &&
  sorted (initialVestingAmount st).

Definition nonZeroAmounts (st : Amounts) : bool :=
  nonZero (circulatingAmount st) && nonZero (modulesAmount st) &&
  nonZero (initialVestingAmount st).

(** The Supplier Record Checker as the specification words it: three
    comparisons of the record against the sums, the first mismatch reported
    with the recorded and the computed value. *)
Definition supplierCheck (sup : Supplier) (sums : Amounts) : error :=
  if Coins_eq_dec (CirculatingSupply sup) (circulatingAmount sums) then
    if Coins_eq_dec (ModulesSupply sup) (modulesAmount sums) then
      if Coins_eq_dec (InitialVestingSupply sup) (initialVestingAmount sums) then None
      else Some (Errorf vestingFormat
                   [InitialVestingSupply sup; initialVestingAmount sums])
    else Some (Errorf modulesFormat [ModulesSupply sup; modulesAmount sums])
  else Some (Errorf circulatingFormat
               [CirculatingSupply sup; circulatingAmount sums]).

(** The comparison of the Total Supply Reconciler, likewise. *)
Definition totalSupplyCheck (recorded computed : Coins) : error :=
  if Coins_eq_dec recorded computed then None
  else Some (Errorf totalFormat [recorded; computed]).

(** The supplier record with one field changed. *)
Definition withCirculatingSupply (sup : Supplier) (cs : Coins) : Supplier :=
  {| CirculatingSupply := cs;
     ModulesSupply := ModulesSupply sup;
     InitialVestingSupply := InitialVestingSupply sup;
     TotalSupply := TotalSupply sup |}.

Definition withModulesSupply (sup : Supplier) (cs : Coins) : Supplier :=
  {| CirculatingSupply := CirculatingSupply sup;
     ModulesSupply := cs;
     InitialVestingSupply := InitialVestingSupply sup;
     TotalSupply := TotalSupply sup |}.

Definition withInitialVestingSupply (sup : Supplier) (cs : Coins) : Supplier :=
  {| CirculatingSupply := CirculatingSupply sup;
     ModulesSupply := ModulesSupply sup;
     InitialVestingSupply := cs;
     TotalSupply := TotalSupply sup |}.

End keeper.

(** ** Scenarios *)

Module Scenario.

Import sdk keeper.

Definition atom (n : Z) : Coins := [NewCoin "atom" n].

Definition basicAccount (coins : Coins) : auth.Account :=
  {| auth.GetCoins := coins;
     auth.asVestingAccount := None;
     auth.isModuleAccount := false |}.

Definition moduleAccount (coins : Coins) : auth.Account :=
  {| auth.GetCoins := coins;
     auth.asVestingAccount := None;
     auth.isModuleAccount := true |}.

Definition vestingAccount (coins original : Coins) (endTime : Z) : auth.Account :=
  {| auth.GetCoins := coins;
     auth.asVestingAccount :=
       Some {| auth.GetOriginalVesting := original; auth.GetEndTime := endTime |};
     auth.isModuleAccount := false |}.

Definition moduleVestingAccount (coins original : Coins) (endTime : Z)
    : auth.Account :=
  {| auth.GetCoins := coins;
     auth.asVestingAccount :=
       Some {| auth.GetOriginalVesting := original; auth.GetEndTime := endTime |};
     auth.isModuleAccount := true |}.

(** One ordinary account with 100 atom and one module account with 50 atom,
    the record in agreement, nothing bonded, no fees, empty pools. *)
Definition consistent : Context :=
  {| BlockTime := 10;
     accounts := [basicAccount (atom 100); moduleAccount (atom 50)];
     supplier := {| CirculatingSupply := atom 100;
                    ModulesSupply := atom 50;
                    InitialVestingSupply := [];
                    TotalSupply := atom 150 |};
     bondDenom := "atom";
     totalBondedTokens := 0;
     collectedFees := [];
     feePoolCommunityCoins := [];
     totalRewards := [] |}.

(** The same with the circulating supply recorded as 99 atom. *)
Definition underRecorded : Context :=
  withSupplier consistent (withCirculatingSupply (supplier consistent) (atom 99)).

(** A record wrong in the circulating supply and in the total. *)
Definition doublyWrong : Context :=
  withSupplier consistent
    {| CirculatingSupply := atom 99;
       ModulesSupply := atom 50;
       InitialVestingSupply := [];
       TotalSupply := atom 1 |}.

(** A population with a module account that is also vesting. *)
Definition vesters : list auth.Account :=
  [ vestingAccount (atom 30) (atom 20) 100;
    moduleVestingAccount (atom 7) (atom 5) 100;
    vestingAccount (atom 4) (atom 3) 10;
    basicAccount [NewCoin "atom" 1; NewCoin "stake" 2] ].

(** A community pool of 2.6 and pending rewards of 3.5 of one denomination. *)
Definition fractional : Context :=
  {| BlockTime := 10;
     accounts := [];
     supplier := {| CirculatingSupply := [];
                    ModulesSupply := [];
                    InitialVestingSupply := [];
                    TotalSupply := atom 6 |};
     bondDenom := "stake";
     totalBondedTokens := 0;
     collectedFees := [];
     feePoolCommunityCoins := [NewDecCoinFromDec "atom" (NewDecWithPrec 26 1)];
     totalRewards := [NewDecCoinFromDec "atom" (NewDecWithPrec 35 1)] |}.

End Scenario.

(** ** Registration of the invariants *)

Module crisis.

(** Modelled from the spec: the crisis keeper (x/crisis) is missing.  It
    keeps the registered checks, each under the name of its module and a
    route, in registration order. *)
Record InvarRoute : Type := NewInvarRoute {
  ModuleName : string;
  Route : string;
  Invar : keeper.Invariant
}.

Definition Keeper : Type := list InvarRoute.

Definition RegisterRoute (ck : Keeper) (moduleName route : string)
    (invar : keeper.Invariant) : Keeper :=
  ck ++ [NewInvarRoute moduleName route invar].

(** The checks are run in registration order, up to the first that
    fails. *)
Fixpoint AssertInvariants (routes : Keeper) (ctx : keeper.Context)
    : keeper.Traced keeper.error :=
  match routes with
  | [] => keeper.ret None
  | ir :: rest =>
      keeper.bind (Invar ir ctx) (fun err =>
        match err with
        | Some _ => keeper.ret err
        | None => AssertInvariants rest ctx
        end)
  end.

End crisis.

Module registration.

Import sdk keeper.

Section Registration.

(** The constant [ModuleName] of the supply module is declared in another
    file of the package. *)
Variable ModuleName : string.

Definition RegisterInvariants (ck : crisis.Keeper) : crisis.Keeper :=
  let ck := crisis.RegisterRoute ck ModuleName "supplier" SupplierInvariants in
  crisis.RegisterRoute ck ModuleName "total-supply" TotalSupplyInvariant.

End Registration.

End registration.

(** ** Further quantities *)

Module Quantities.

Import sdk keeper.

(** The fixed-point amount a fractional vector holds of one denomination. *)
Fixpoint DecAmountOf (denom : string) (cs : DecCoins) : Dec :=
  match cs with
  | [] => 0
  | c :: rest =>
      (if String.eqb (DecDenom c) denom then DecAmount c else 0) +
      DecAmountOf denom rest
  end.

(** The Fractional Coin Vector invariant: denominations strictly
    increasing, no amount negative. *)
Fixpoint decSortedFrom (d : string) (cs : DecCoins) : bool :=
  match cs with
  | [] => true
  | c :: rest =>
      match String.compare d (DecDenom c) with
      | Lt => decSortedFrom (DecDenom c) rest
      | _ => false
      end
  end.

Definition decSorted (cs : DecCoins) : bool :=
  match cs with
  | [] => true
  | c :: rest => decSortedFrom (DecDenom c) rest
  end.

Definition DecIsValid (cs : DecCoins) : bool :=
  decSorted cs && forallb (fun c => 0 <=? DecAmount c) cs.

(** The three vectors the total-supply check draws from the two pools: the
    whole parts, and the carry of the two remainders; and the fraction it
    drops. *)
Definition communityWhole (ctx : Context) : Coins :=
  fst (DecCoins.TruncateDecimal (feePoolCommunityCoins ctx)).

Definition rewardsWhole (ctx : Context) : Coins :=
  fst (DecCoins.TruncateDecimal (totalRewards ctx)).

Definition remainders (ctx : Context) : DecCoins :=
  DecCoins.Add (snd (DecCoins.TruncateDecimal (feePoolCommunityCoins ctx)))
               (snd (DecCoins.TruncateDecimal (totalRewards ctx))).

Definition carry (ctx : Context) : Coins :=
  fst (DecCoins.TruncateDecimal (remainders ctx)).

Definition discarded (ctx : Context) : DecCoins :=
  snd (DecCoins.TruncateDecimal (remainders ctx)).

Definition bondedSupply (ctx : Context) : Coins :=
  NewCoins (NewCoin (bondDenom ctx) (totalBondedTokens ctx)).

(** All amounts of a vector positive. *)
Definition positive (cs : Coins) : bool := forallb (fun c => 0 <? Amount c) cs.

(** The end time of every vesting account has come. *)
Definition allVested (blockTime : Z) (accs : list auth.Account) : bool :=
  forallb (fun acc =>
             match auth.asVestingAccount acc with
             | Some vacc => auth.GetEndTime vacc <=? blockTime
             | None => true
             end) accs.

(** The same snapshot at another block time, or with other staking
    readings. *)
Definition withBlockTime (ctx : Context) (t : Z) : Context :=
  {| BlockTime := t;
     accounts := accounts ctx;
     supplier := supplier ctx;
     bondDenom := bondDenom ctx;
     totalBondedTokens := totalBondedTokens ctx;
     collectedFees := collectedFees ctx;
     feePoolCommunityCoins := feePoolCommunityCoins ctx;
     totalRewards := totalRewards ctx |}.

Definition withBonded (ctx : Context) (denom : string) (tokens : Z) : Context :=
  {| BlockTime := BlockTime ctx;
     accounts := accounts ctx;
     supplier := supplier ctx;
     bondDenom := denom;
     totalBondedTokens := tokens;
     collectedFees := collectedFees ctx;
     feePoolCommunityCoins := feePoolCommunityCoins ctx;
     totalRewards := totalRewards ctx |}.

Definition withCollectedFees (ctx : Context) (fees : Coins) : Context :=
  {| BlockTime := BlockTime ctx;
     accounts := accounts ctx;
     supplier := supplier ctx;
     bondDenom := bondDenom ctx;
     totalBondedTokens := totalBondedTokens ctx;
     collectedFees := fees;
     feePoolCommunityCoins := feePoolCommunityCoins ctx;
     totalRewards := totalRewards ctx |}.

(** The same account holding other coins. *)
Definition withCoins (acc : auth.Account) (coins : Coins) : auth.Account :=
  {| auth.GetCoins := coins;
     auth.asVestingAccount := auth.asVestingAccount acc;
     auth.isModuleAccount := auth.isModuleAccount acc |}.

Definition withTotalSupply (sup : Supplier) (cs : Coins) : Supplier :=
  {| CirculatingSupply := CirculatingSupply sup;
     ModulesSupply := ModulesSupply sup;
     InitialVestingSupply := InitialVestingSupply sup;
     TotalSupply := cs |}.

(** A snapshot with bonded stake, fees and fractional pools in two
    denominations, and a record in agreement with it. *)
Definition busy : Context :=
  {| BlockTime := 10;
     accounts := Scenario.vesters;
     supplier := {| CirculatingSupply := [NewCoin "atom" 35; NewCoin "stake" 2];
                    ModulesSupply := Scenario.atom 7;
                    InitialVestingSupply := Scenario.atom 25;
                    TotalSupply := [NewCoin "atom" 49; NewCoin "stake" 13] |};
     bondDenom := "stake";
     totalBondedTokens := 9;
     collectedFees := Scenario.atom 1;
     feePoolCommunityCoins :=
       [NewDecCoinFromDec "atom" (NewDecWithPrec 26 1);
        NewDecCoinFromDec "stake" (NewDecWithPrec 14 1)];
     totalRewards :=
       [NewDecCoinFromDec "atom" (NewDecWithPrec 35 1);
        NewDecCoinFromDec "stake" (NewDecWithPrec 12 1)] |}.

End Quantities.

(** ** Coin Vector arithmetic *)

Module CoinsFacts.

Import sdk.

Lemma compare_refl (a : string) : String.compare a a = Eq.
Proof. now apply String_as_OT.cmp_eq. Qed.

Lemma compare_trans (a b c : string) :
  String.compare a b = Lt -> String.compare b c = Lt -> String.compare a c = Lt.
Proof.
  intros Hab Hbc. apply String_as_OT.cmp_lt.
  apply String_as_OT.lt_trans with b; now apply String_as_OT.cmp_lt.
Qed.

Lemma compare_Gt_Lt (a b : string) :
  String.compare a b = Gt -> String.compare b a = Lt.
Proof.
  intros H. rewrite String.compare_antisym, H. reflexivity.
Qed.

Lemma compare_Lt_eqb (a b : string) :
  String.compare a b = Lt -> String.eqb b a = false.
Proof.
  intros H. apply String.eqb_neq. intros ->.
  rewrite compare_refl in H. discriminate.
Qed.

Lemma Add_nil_l (b : Coins) : Coins.Add [] b = removeZeroCoins b.
Proof. destruct b; reflexivity. Qed.

Lemma Add_nil_r (a : Coins) : Coins.Add a [] = removeZeroCoins a.
Proof. destruct a; reflexivity. Qed.

Lemma Add_cons_cons (ca : Coin) (ta : Coins) (cb : Coin) (tb : Coins) :
  Coins.Add (ca :: ta) (cb :: tb) =
  match String.compare (Denom ca) (Denom cb) with
  | Lt => appendNonZero ca (Coins.Add ta (cb :: tb))
  | Eq => appendNonZero (NewCoin (Denom ca) (Amount ca + Amount cb))
            (Coins.Add ta tb)
  | Gt => appendNonZero cb (Coins.Add (ca :: ta) tb)
  end.
Proof. reflexivity. Qed.

(** *** Amounts *)

Lemma AmountOf_appendNonZero (d : string) (c : Coin) (cs : Coins) :
  AmountOf d (appendNonZero c cs) = AmountOf d (c :: cs).
Proof.
  unfold appendNonZero, Coin_IsZero. cbn [AmountOf].
  destruct (Z.eqb_spec (Amount c) 0) as [E|E]; [|reflexivity].
  rewrite E. destruct (String.eqb (Denom c) d); reflexivity.
Qed.

Lemma AmountOf_removeZeroCoins (d : string) (cs : Coins) :
  AmountOf d (removeZeroCoins cs) = AmountOf d cs.
Proof.
  induction cs as [|c rest IH]; [reflexivity|].
  cbn [removeZeroCoins]. rewrite AmountOf_appendNonZero.
  cbn [AmountOf]. now rewrite IH.
Qed.

Lemma AmountOf_Add (d : string) (a b : Coins) :
  AmountOf d (Coins.Add a b) = AmountOf d a + AmountOf d b.
Proof.
  revert b. induction a as [|ca ta IHa]; intros b.
  - rewrite Add_nil_l, AmountOf_removeZeroCoins. reflexivity.
  - induction b as [|cb tb IHb].
    + rewrite Add_nil_r, AmountOf_removeZeroCoins. cbn [AmountOf]. lia.
    + rewrite Add_cons_cons.
      destruct (String.compare (Denom ca) (Denom cb)) eqn:E;
        rewrite AmountOf_appendNonZero; cbn [AmountOf].
      * apply String.compare_eq_iff in E. rewrite IHa, <- E. cbn [Denom Amount].
        destruct (String.eqb (Denom ca) d); lia.
      * rewrite IHa. cbn [AmountOf]. lia.
      * rewrite IHb. cbn [AmountOf]. lia.
Qed.

(** *** No zero entry *)

Lemma nonZero_appendNonZero (c : Coin) (cs : Coins) :
  nonZero cs = true -> nonZero (appendNonZero c cs) = true.
Proof.
  intros H. unfold appendNonZero.
  destruct (Coin_IsZero c) eqn:E; [exact H|].
  unfold nonZero. cbn [forallb]. rewrite E. exact H.
Qed.

Lemma nonZero_removeZeroCoins (cs : Coins) : nonZero (removeZeroCoins cs) = true.
Proof.
  induction cs as [|c rest IH]; [reflexivity|].
  cbn [removeZeroCoins]. now apply nonZero_appendNonZero.
Qed.

Lemma nonZero_Add (a b : Coins) : nonZero (Coins.Add a b) = true.
Proof.
  revert b. induction a as [|ca ta IHa]; intros b.
  - rewrite Add_nil_l. apply nonZero_removeZeroCoins.
  - induction b as [|cb tb IHb].
    + rewrite Add_nil_r. apply nonZero_removeZeroCoins.
    + rewrite Add_cons_cons.
      destruct (String.compare (Denom ca) (Denom cb));
        apply nonZero_appendNonZero; auto.
Qed.

Lemma removeZeroCoins_nonZero (cs : Coins) :
  nonZero cs = true -> removeZeroCoins cs = cs.
Proof.
  induction cs as [|c rest IH]; [reflexivity|].
  unfold nonZero. cbn [forallb removeZeroCoins]. intros H.
  apply andb_true_iff in H. destruct H as [Hc Hrest].
  unfold appendNonZero. apply negb_true_iff in Hc. rewrite Hc.
  f_equal. now apply IH.
Qed.

(** *** Order of the denominations *)

Lemma sortedFrom_cons (d : string) (c : Coin) (cs : Coins) :
  sortedFrom d (c :: cs) = true <->
  String.compare d (Denom c) = Lt /\ sortedFrom (Denom c) cs = true.
Proof.
  cbn [sortedFrom]. destruct (String.compare d (Denom c)); split;
    intros H; try discriminate; try (destruct H; discriminate); auto.
  now destruct H.
Qed.

Lemma sortedFrom_weaken (d d' : string) (cs : Coins) :
  String.compare d d' = Lt -> sortedFrom d' cs = true -> sortedFrom d cs = true.
Proof.
  intros Hd H. destruct cs as [|c rest]; [reflexivity|].
  apply sortedFrom_cons in H. destruct H as [H1 H2].
  apply sortedFrom_cons. split; [|exact H2].
  now apply compare_trans with d'.
Qed.

Lemma sortedFrom_sorted (d : string) (cs : Coins) :
  sortedFrom d cs = true -> sorted cs = true.
Proof.
  destruct cs as [|c rest]; [reflexivity|].
  intros H. apply sortedFrom_cons in H. now destruct H.
Qed.

Lemma sortedFrom_appendNonZero (d : string) (c : Coin) (cs : Coins) :
  String.compare d (Denom c) = Lt -> sortedFrom (Denom c) cs = true ->
  sortedFrom d (appendNonZero c cs) = true.
Proof.
  intros Hd H. unfold appendNonZero. destruct (Coin_IsZero c).
  - now apply sortedFrom_weaken with (Denom c).
  - now apply sortedFrom_cons.
Qed.

Lemma sorted_appendNonZero (c : Coin) (cs : Coins) :
  sortedFrom (Denom c) cs = true -> sorted (appendNonZero c cs) = true.
Proof.
  intros H. unfold appendNonZero. destruct (Coin_IsZero c).
  - now apply sortedFrom_sorted with (Denom c).
  - exact H.
Qed.

Lemma sortedFrom_removeZeroCoins (d : string) (cs : Coins) :
  sortedFrom d cs = true -> sortedFrom d (removeZeroCoins cs) = true.
Proof.
  revert d. induction cs as [|c rest IH]; intros d H; [reflexivity|].
  apply sortedFrom_cons in H. destruct H as [H1 H2].
  cbn [removeZeroCoins]. apply sortedFrom_appendNonZero; auto.
Qed.

Lemma sorted_removeZeroCoins (cs : Coins) :
  sorted cs = true -> sorted (removeZeroCoins cs) = true.
Proof.
  destruct cs as [|c rest]; [reflexivity|]. intros H.
  cbn [removeZeroCoins]. apply sorted_appendNonZero.
  now apply sortedFrom_removeZeroCoins.
Qed.

Lemma sortedFrom_Add (a b : Coins) (d : string) :
  sortedFrom d a = true -> sortedFrom d b = true ->
  sortedFrom d (Coins.Add a b) = true.
Proof.
  revert b d. induction a as [|ca ta IHa]; intros b.
  - intros d _ Hb. rewrite Add_nil_l. now apply sortedFrom_removeZeroCoins.
  - induction b as [|cb tb IHb]; intros d Ha Hb.
    + rewrite Add_nil_r. now apply sortedFrom_removeZeroCoins.
    + rewrite Add_cons_cons.
      apply sortedFrom_cons in Ha. destruct Ha as [Ha1 Ha2].
      apply sortedFrom_cons in Hb. destruct Hb as [Hb1 Hb2].
      destruct (String.compare (Denom ca) (Denom cb)) eqn:E.
      * apply String.compare_eq_iff in E.
        apply sortedFrom_appendNonZero; [exact Ha1|]. cbn [Denom].
        apply IHa; [exact Ha2|]. now rewrite E.
      * apply sortedFrom_appendNonZero; [exact Ha1|].
        apply IHa; [exact Ha2|]. now apply sortedFrom_cons.
      * apply sortedFrom_appendNonZero; [exact Hb1|].
        apply IHb; [|exact Hb2].
        apply sortedFrom_cons. split; [now apply compare_Gt_Lt|exact Ha2].
Qed.

Lemma sorted_Add (a b : Coins) :
  sorted a = true -> sorted b = true -> sorted (Coins.Add a b) = true.
Proof.
  intros Ha Hb. destruct a as [|ca ta].
  - rewrite Add_nil_l. now apply sorted_removeZeroCoins.
  - destruct b as [|cb tb].
    + rewrite Add_nil_r. now apply sorted_removeZeroCoins.
    + rewrite Add_cons_cons. cbn [sorted] in Ha, Hb.
      destruct (String.compare (Denom ca) (Denom cb)) eqn:E;
        apply sorted_appendNonZero.
      * apply String.compare_eq_iff in E. cbn [Denom].
        apply sortedFrom_Add; [exact Ha|]. now rewrite E.
      * apply sortedFrom_Add; [exact Ha|]. now apply sortedFrom_cons.
      * apply sortedFrom_Add; [|exact Hb].
        apply sortedFrom_cons. split; [now apply compare_Gt_Lt|exact Ha].
Qed.

Lemma AmountOf_sortedFrom (d : string) (cs : Coins) :
  sortedFrom d cs = true -> AmountOf d cs = 0.
Proof.
  induction cs as [|c rest IH]; [reflexivity|]. intros H.
  apply sortedFrom_cons in H. destruct H as [H1 H2].
  cbn [AmountOf]. rewrite (compare_Lt_eqb _ _ H1).
  rewrite IH; [reflexivity|]. now apply sortedFrom_weaken with (Denom c).
Qed.

Lemma AmountOf_head (c : Coin) (cs : Coins) :
  sortedFrom (Denom c) cs = true -> AmountOf (Denom c) (c :: cs) = Amount c.
Proof.
  intros H. cbn [AmountOf]. rewrite String.eqb_refl.
  rewrite AmountOf_sortedFrom by exact H. lia.
Qed.

(** Two ordered vectors without zero entries that hold the same amount of
    every denomination are the same list. *)
Lemma Coins_ext (a b : Coins) :
  sorted a = true -> nonZero a = true ->
  sorted b = true -> nonZero b = true ->
  (forall d, AmountOf d a = AmountOf d b) -> a = b.
Proof.
  revert b. induction a as [|ca ta IH]; intros [|cb tb] Sa Za Sb Zb Hd.
  - reflexivity.
  - exfalso. specialize (Hd (Denom cb)). cbn [sorted] in Sb.
    rewrite (AmountOf_head _ _ Sb) in Hd. cbn in Hd, Zb.
    unfold Coin_IsZero in Zb. destruct (Z.eqb_spec (Amount cb) 0); [discriminate|lia].
  - exfalso. specialize (Hd (Denom ca)). cbn [sorted] in Sa.
    rewrite (AmountOf_head _ _ Sa) in Hd. cbn in Hd, Za.
    unfold Coin_IsZero in Za. destruct (Z.eqb_spec (Amount ca) 0); [discriminate|lia].
  - cbn [sorted] in Sa, Sb.
    unfold nonZero in Za, Zb. cbn [forallb] in Za, Zb.
    apply andb_true_iff in Za. destruct Za as [Za1 Za2].
    apply andb_true_iff in Zb. destruct Zb as [Zb1 Zb2].
    unfold Coin_IsZero in Za1, Zb1.
    destruct (Z.eqb_spec (Amount ca) 0) as [|Na]; [discriminate|].
    destruct (Z.eqb_spec (Amount cb) 0) as [|Nb]; [discriminate|].
    destruct (String.compare (Denom ca) (Denom cb)) eqn:E.
    + apply String.compare_eq_iff in E.
      assert (Hamt : Amount ca = Amount cb).
      { pose proof (Hd (Denom ca)) as H.
        rewrite (AmountOf_head _ _ Sa) in H. rewrite E in H.
        rewrite (AmountOf_head _ _ Sb) in H. exact H. }
      assert (Hc : ca = cb).
      { destruct ca, cb; cbn in *; congruence. }
      subst cb. f_equal. apply IH; auto.
      * now apply sortedFrom_sorted with (Denom ca).
      * now apply sortedFrom_sorted with (Denom ca).
      * intros d. specialize (Hd d). cbn [AmountOf] in Hd. lia.
    + exfalso. pose proof (Hd (Denom ca)) as H.
      rewrite (AmountOf_head _ _ Sa) in H.
      rewrite AmountOf_sortedFrom in H; [lia|]. now apply sortedFrom_cons.
    + exfalso. pose proof (Hd (Denom cb)) as H.
      rewrite (AmountOf_head _ _ Sb) in H.
      rewrite AmountOf_sortedFrom in H; [lia|].
      apply sortedFrom_cons. split; [now apply compare_Gt_Lt|exact Sa].
Qed.

Lemma Coin_IsEqual_eq (a b : Coin) : Coin_IsEqual a b = true <-> a = b.
Proof.
  unfold Coin_IsEqual. rewrite andb_true_iff, String.eqb_eq, Z.eqb_eq.
  destruct a, b; cbn. split; [intros [-> ->]; reflexivity|].
  intros H; inversion H; auto.
Qed.

Lemma IsEqual_eq (a b : Coins) : Coins.IsEqual a b = true <-> a = b.
Proof.
  revert b. induction a as [|ca ta IH]; intros [|cb tb]; cbn [Coins.IsEqual];
    try (split; [discriminate|discriminate]); [tauto|].
  rewrite andb_true_iff, Coin_IsEqual_eq, IH.
  split; [intros [-> ->]; reflexivity|]. intros H; inversion H; auto.
Qed.

Lemma IsEqual_refl (a : Coins) : Coins.IsEqual a a = true.
Proof. now apply IsEqual_eq. Qed.

Lemma Add_comm (a b : Coins) :
  sorted a = true -> sorted b = true -> Coins.Add a b = Coins.Add b a.
Proof.
  intros Ha Hb. apply Coins_ext;
    auto using sorted_Add, nonZero_Add.
  intros d. rewrite !AmountOf_Add. lia.
Qed.

Lemma Add_assoc (a b c : Coins) :
  sorted a = true -> sorted b = true -> sorted c = true ->
  Coins.Add (Coins.Add a b) c = Coins.Add a (Coins.Add b c).
Proof.
  intros Ha Hb Hc. apply Coins_ext;
    auto using sorted_Add, nonZero_Add.
  intros d. rewrite !AmountOf_Add. lia.
Qed.

Lemma IsValid_sorted (cs : Coins) : IsValid cs = true -> sorted cs = true.
Proof.
  unfold IsValid. intros H. apply andb_true_iff in H. now destruct H.
Qed.

Lemma DecCoins_Add_cons_cons (ca : DecCoin) (ta : DecCoins) (cb : DecCoin)
    (tb : DecCoins) :
  DecCoins.Add (ca :: ta) (cb :: tb) =
  match String.compare (DecDenom ca) (DecDenom cb) with
  | Lt => appendNonZeroDec ca (DecCoins.Add ta (cb :: tb))
  | Eq => appendNonZeroDec
            (NewDecCoinFromDec (DecDenom ca) (DecAmount ca + DecAmount cb))
            (DecCoins.Add ta tb)
  | Gt => appendNonZeroDec cb (DecCoins.Add (ca :: ta) tb)
  end.
Proof. reflexivity. Qed.

Lemma DecCoins_Add_same_denom (denom : string) (a b : Dec) :
  DecCoins.Add [NewDecCoinFromDec denom a] [NewDecCoinFromDec denom b] =
  appendNonZeroDec (NewDecCoinFromDec denom (a + b)) [].
Proof.
  rewrite DecCoins_Add_cons_cons. cbn [DecDenom DecAmount].
  now rewrite compare_refl.
Qed.

End CoinsFacts.

(** ** The account fold *)

Module AggregatorFacts.

Import sdk keeper CoinsFacts.

Lemma process_continue (ctx : Context) (st : Amounts) (acc : auth.Account) :
  snd (process ctx st acc) = false.
Proof. reflexivity. Qed.

Lemma iterate_cons (ctx : Context) (acc : auth.Account)
    (rest : list auth.Account) (st : Amounts) :
  iterate (process ctx) (acc :: rest) st =
  iterate (process ctx) rest (fst (process ctx st acc)).
Proof. reflexivity. Qed.

Lemma iterate_fold (ctx : Context) (accs : list auth.Account) (st : Amounts) :
  iterate (process ctx) accs st =
  fold_left (fun s acc => fst (process ctx s acc)) accs st.
Proof.
  revert st. induction accs as [|acc rest IH]; intros st; [reflexivity|].
  rewrite iterate_cons. cbn [fold_left]. apply IH.
Qed.

Lemma iterate_app (ctx : Context) (l1 l2 : list auth.Account) (st : Amounts) :
  iterate (process ctx) (l1 ++ l2) st =
  iterate (process ctx) l2 (iterate (process ctx) l1 st).
Proof.
  rewrite !iterate_fold. apply fold_left_app.
Qed.

(** One step of the callback, sum by sum. *)
Lemma process_circulating (ctx : Context) (st : Amounts) (acc : auth.Account) :
  circulatingAmount (fst (process ctx st acc)) =
  if auth.isModuleAccount acc then circulatingAmount st
  else Coins.Add (circulatingAmount st) (auth.GetCoins acc).
Proof. unfold process. destruct (auth.isModuleAccount acc); reflexivity. Qed.

Lemma process_modules (ctx : Context) (st : Amounts) (acc : auth.Account) :
  modulesAmount (fst (process ctx st acc)) =
  if auth.isModuleAccount acc
  then Coins.Add (modulesAmount st) (auth.GetCoins acc)
  else modulesAmount st.
Proof. unfold process. destruct (auth.isModuleAccount acc); reflexivity. Qed.

Lemma process_initialVesting (ctx : Context) (st : Amounts) (acc : auth.Account) :
  initialVestingAmount (fst (process ctx st acc)) =
  match auth.asVestingAccount acc with
  | Some vacc =>
      if BlockTime ctx <? auth.GetEndTime vacc
      then Coins.Add (initialVestingAmount st) (auth.GetOriginalVesting vacc)
      else initialVestingAmount st
  | None => initialVestingAmount st
  end.
Proof. unfold process. destruct (auth.isModuleAccount acc); reflexivity. Qed.

(** The sums, denomination by denomination. *)
Lemma AmountOf_process (ctx : Context) (d : string) (st : Amounts)
    (acc : auth.Account) :
  AmountOf d (circulatingAmount (fst (process ctx st acc))) =
    AmountOf d (circulatingAmount st) + circulatingOf d acc /\
  AmountOf d (modulesAmount (fst (process ctx st acc))) =
    AmountOf d (modulesAmount st) + modulesOf d acc /\
  AmountOf d (initialVestingAmount (fst (process ctx st acc))) =
    AmountOf d (initialVestingAmount st) + vestingOf (BlockTime ctx) d acc.
Proof.
  rewrite process_circulating, process_modules, process_initialVesting.
  unfold circulatingOf, modulesOf, vestingOf.
  destruct (auth.isModuleAccount acc);
    destruct (auth.asVestingAccount acc) as [vacc|];
    try destruct (BlockTime ctx <? auth.GetEndTime vacc);
    rewrite ?AmountOf_Add; repeat split; lia.
Qed.

Lemma AmountOf_iterate (ctx : Context) (d : string) (accs : list auth.Account)
    (st : Amounts) :
  AmountOf d (circulatingAmount (iterate (process ctx) accs st)) =
    AmountOf d (circulatingAmount st) + sumOver (circulatingOf d) accs /\
  AmountOf d (modulesAmount (iterate (process ctx) accs st)) =
    AmountOf d (modulesAmount st) + sumOver (modulesOf d) accs /\
  AmountOf d (initialVestingAmount (iterate (process ctx) accs st)) =
    AmountOf d (initialVestingAmount st) +
    sumOver (vestingOf (BlockTime ctx) d) accs.
Proof.
  revert st. induction accs as [|acc rest IH]; intros st.
  - cbn. repeat split; lia.
  - rewrite iterate_cons. cbn [sumOver fold_right].
    destruct (IH (fst (process ctx st acc))) as (Hc & Hm & Hv).
    destruct (AmountOf_process ctx d st acc) as (Pc & Pm & Pv).
    fold (sumOver (circulatingOf d) rest).
    fold (sumOver (modulesOf d) rest).
    fold (sumOver (vestingOf (BlockTime ctx) d) rest).
    rewrite Hc, Hm, Hv, Pc, Pm, Pv. repeat split; lia.
Qed.

Lemma sumOver_app (f : auth.Account -> Z) (l1 l2 : list auth.Account) :
  sumOver f (l1 ++ l2) = sumOver f l1 + sumOver f l2.
Proof.
  induction l1 as [|a l1 IH]; cbn; [reflexivity|].
  fold (sumOver f (l1 ++ l2)). fold (sumOver f l1). lia.
Qed.

Lemma sumOver_Permutation (f : auth.Account -> Z) (l1 l2 : list auth.Account) :
  Permutation l1 l2 -> sumOver f l1 = sumOver f l2.
Proof.
  induction 1 as [|a l l' _ IH|a b l|l l' l'' _ IH1 _ IH2]; cbn.
  - reflexivity.
  - fold (sumOver f l). fold (sumOver f l'). lia.
  - lia.
  - congruence.
Qed.

(** The sums keep the Coin Vector invariant. *)
Lemma nonZero_process (ctx : Context) (st : Amounts) (acc : auth.Account) :
  nonZeroAmounts st = true -> nonZeroAmounts (fst (process ctx st acc)) = true.
Proof.
  unfold nonZeroAmounts. rewrite !andb_true_iff. intros [[Hc Hm] Hv].
  rewrite process_circulating, process_modules, process_initialVesting.
  destruct (auth.isModuleAccount acc);
    destruct (auth.asVestingAccount acc) as [vacc|];
    try destruct (BlockTime ctx <? auth.GetEndTime vacc);
    repeat split; auto using nonZero_Add.
Qed.

Lemma sorted_process (ctx : Context) (st : Amounts) (acc : auth.Account) :
  validAccount acc = true ->
  sortedAmounts st = true -> sortedAmounts (fst (process ctx st acc)) = true.
Proof.
  unfold sortedAmounts, validAccount. rewrite !andb_true_iff.
  intros [Hcoins Hvest] [[Hc Hm] Hv].
  apply IsValid_sorted in Hcoins.
  rewrite process_circulating, process_modules, process_initialVesting.
  destruct (auth.isModuleAccount acc);
    destruct (auth.asVestingAccount acc) as [vacc|];
    try apply IsValid_sorted in Hvest;
    try destruct (BlockTime ctx <? auth.GetEndTime vacc);
    repeat split; auto using sorted_Add.
Qed.

Lemma nonZero_iterate (ctx : Context) (accs : list auth.Account) (st : Amounts) :
  nonZeroAmounts st = true ->
  nonZeroAmounts (iterate (process ctx) accs st) = true.
Proof.
  revert st. induction accs as [|acc rest IH]; intros st H; [exact H|].
  rewrite iterate_cons. apply IH. now apply nonZero_process.
Qed.

Lemma sorted_iterate (ctx : Context) (accs : list auth.Account) (st : Amounts) :
  forallb validAccount accs = true ->
  sortedAmounts st = true ->
  sortedAmounts (iterate (process ctx) accs st) = true.
Proof.
  revert st. induction accs as [|acc rest IH]; intros st Hv H; [exact H|].
  cbn [forallb] in Hv. apply andb_true_iff in Hv. destruct Hv as [Ha Hrest].
  rewrite iterate_cons. apply IH; [exact Hrest|]. now apply sorted_process.
Qed.

Lemma forallb_Permutation (f : auth.Account -> bool) (l1 l2 : list auth.Account) :
  Permutation l1 l2 -> forallb f l1 = true -> forallb f l2 = true.
Proof.
  intros P H. rewrite forallb_forall in *. intros x Hx.
  apply H. apply Permutation_in with l2; [now apply Permutation_sym|exact Hx].
Qed.

Lemma Amounts_ext (s t : Amounts) :
  sortedAmounts s = true -> nonZeroAmounts s = true ->
  sortedAmounts t = true -> nonZeroAmounts t = true ->
  (forall d,
     AmountOf d (circulatingAmount s) = AmountOf d (circulatingAmount t) /\
     AmountOf d (modulesAmount s) = AmountOf d (modulesAmount t) /\
     AmountOf d (initialVestingAmount s) = AmountOf d (initialVestingAmount t)) ->
  s = t.
Proof.
  unfold sortedAmounts, nonZeroAmounts. rewrite !andb_true_iff.
  intros [[S1 S2] S3] [[Z1 Z2] Z3] [[T1 T2] T3] [[N1 N2] N3] H.
  destruct s as [sc sm sv], t as [tc tm tv]. cbn in *.
  f_equal; apply Coins_ext; auto; intros d; apply (H d).
Qed.

(** The sum of all holdings. *)
Lemma holdings_fold (d : string) (accs : list auth.Account) (init : Coins) :
  AmountOf d (fold_left (fun sum acc => Coins.Add sum (auth.GetCoins acc)) accs init) =
  AmountOf d init + sumOver (fun acc => AmountOf d (auth.GetCoins acc)) accs.
Proof.
  revert init. induction accs as [|acc rest IH]; intros init; cbn [fold_left].
  - cbn. lia.
  - rewrite IH, AmountOf_Add. cbn [sumOver fold_right].
    fold (sumOver (fun acc => AmountOf d (auth.GetCoins acc)) rest). lia.
Qed.

Lemma holdings_sorted (accs : list auth.Account) (init : Coins) :
  forallb validAccount accs = true -> sorted init = true ->
  sorted (fold_left (fun sum acc => Coins.Add sum (auth.GetCoins acc)) accs init) = true.
Proof.
  revert init. induction accs as [|acc rest IH]; intros init Hv Hs; [exact Hs|].
  cbn [forallb] in Hv. apply andb_true_iff in Hv. destruct Hv as [Ha Hrest].
  cbn [fold_left]. apply IH; [exact Hrest|].
  unfold validAccount in Ha. apply andb_true_iff in Ha. destruct Ha as [Ha _].
  apply sorted_Add; [exact Hs|now apply IsValid_sorted].
Qed.

Lemma holdings_nonZero (accs : list auth.Account) (init : Coins) :
  nonZero init = true ->
  nonZero (fold_left (fun sum acc => Coins.Add sum (auth.GetCoins acc)) accs init) = true.
Proof.
  revert init. induction accs as [|acc rest IH]; intros init Hz; [exact Hz|].
  cbn [fold_left]. apply IH. apply nonZero_Add.
Qed.

Lemma sumOver_split (d : string) (accs : list auth.Account) :
  sumOver (fun acc => AmountOf d (auth.GetCoins acc)) accs =
  sumOver (circulatingOf d) accs + sumOver (modulesOf d) accs.
Proof.
  induction accs as [|acc rest IH]; [reflexivity|].
  cbn [sumOver fold_right].
  fold (sumOver (fun acc => AmountOf d (auth.GetCoins acc)) rest).
  fold (sumOver (circulatingOf d) rest). fold (sumOver (modulesOf d) rest).
  rewrite IH. unfold circulatingOf, modulesOf.
  destruct (auth.isModuleAccount acc); lia.
Qed.

Lemma aggregate_sorted (ctx : Context) :
  forallb validAccount (accounts ctx) = true ->
  sortedAmounts (aggregate ctx) = true.
Proof. intros H. now apply sorted_iterate. Qed.

Lemma aggregate_nonZero (ctx : Context) : nonZeroAmounts (aggregate ctx) = true.
Proof. now apply nonZero_iterate. Qed.

End AggregatorFacts.

(** ** The checks *)

Module InvariantFacts.

Import sdk keeper CoinsFacts AggregatorFacts.

Lemma IsEqual_dec (a b : Coins) :
  Coins.IsEqual a b = if Coins_eq_dec a b then true else false.
Proof.
  destruct (Coins_eq_dec a b) as [E|N].
  - now apply IsEqual_eq.
  - destruct (Coins.IsEqual a b) eqn:E; [|reflexivity].
    apply IsEqual_eq in E. contradiction.
Qed.

Lemma SupplierInvariants_run (ctx : Context) :
  SupplierInvariants ctx =
  (supplierCheck (supplier ctx) (aggregate ctx),
   [CallGetSupplier; CallIterateAccounts]).
Proof.
  unfold SupplierInvariants, supplierCheck, GetSupplier, IterateAccounts, call.
  fold (aggregate ctx). cbn [bind]. rewrite !IsEqual_dec.
  destruct (Coins_eq_dec (CirculatingSupply (supplier ctx))
              (circulatingAmount (aggregate ctx))); [|reflexivity].
  destruct (Coins_eq_dec (ModulesSupply (supplier ctx))
              (modulesAmount (aggregate ctx))); [|reflexivity].
  destruct (Coins_eq_dec (InitialVestingSupply (supplier ctx))
              (initialVestingAmount (aggregate ctx))); reflexivity.
Qed.

Lemma supplierCheck_None (sup : Supplier) (sums : Amounts) :
  supplierCheck sup sums = None <->
  CirculatingSupply sup = circulatingAmount sums /\
  ModulesSupply sup = modulesAmount sums /\
  InitialVestingSupply sup = initialVestingAmount sums.
Proof.
  unfold supplierCheck.
  destruct (Coins_eq_dec (CirculatingSupply sup) (circulatingAmount sums));
    [|split; [discriminate|tauto]].
  destruct (Coins_eq_dec (ModulesSupply sup) (modulesAmount sums));
    [|split; [discriminate|tauto]].
  destruct (Coins_eq_dec (InitialVestingSupply sup) (initialVestingAmount sums));
    [tauto|split; [discriminate|tauto]].
Qed.

Lemma supplierCheck_circulating (sup : Supplier) (sums : Amounts) :
  CirculatingSupply sup <> circulatingAmount sums ->
  supplierCheck sup sums =
  Some (Errorf circulatingFormat [CirculatingSupply sup; circulatingAmount sums]).
Proof.
  intros N. unfold supplierCheck.
  destruct (Coins_eq_dec (CirculatingSupply sup) (circulatingAmount sums));
    [contradiction|reflexivity].
Qed.

Lemma supplierCheck_modules (sup : Supplier) (sums : Amounts) :
  CirculatingSupply sup = circulatingAmount sums ->
  ModulesSupply sup <> modulesAmount sums ->
  supplierCheck sup sums =
  Some (Errorf modulesFormat [ModulesSupply sup; modulesAmount sums]).
Proof.
  intros E N. unfold supplierCheck.
  destruct (Coins_eq_dec (CirculatingSupply sup) (circulatingAmount sums));
    [|contradiction].
  destruct (Coins_eq_dec (ModulesSupply sup) (modulesAmount sums));
    [contradiction|reflexivity].
Qed.

Lemma supplierCheck_vesting (sup : Supplier) (sums : Amounts) :
  CirculatingSupply sup = circulatingAmount sums ->
  ModulesSupply sup = modulesAmount sums ->
  InitialVestingSupply sup <> initialVestingAmount sums ->
  supplierCheck sup sums =
  Some (Errorf vestingFormat
          [InitialVestingSupply sup; initialVestingAmount sums]).
Proof.
  intros E1 E2 N. unfold supplierCheck.
  destruct (Coins_eq_dec (CirculatingSupply sup) (circulatingAmount sums));
    [|contradiction].
  destruct (Coins_eq_dec (ModulesSupply sup) (modulesAmount sums));
    [|contradiction].
  destruct (Coins_eq_dec (InitialVestingSupply sup) (initialVestingAmount sums));
    [contradiction|reflexivity].
Qed.

Lemma TotalSupplyInvariant_run (ctx : Context) :
  TotalSupplyInvariant ctx =
  (totalSupplyCheck (TotalSupply (supplier ctx)) (reconstructed ctx),
   [CallGetSupplier; CallBondDenom; CallTotalBondedTokens; CallGetCollectedFees;
    CallGetFeePoolCommunityCoins; CallGetTotalRewards]).
Proof.
  unfold TotalSupplyInvariant, totalSupplyCheck, reconstructed, realTotalSupply,
    GetSupplier, BondDenom, TotalBondedTokens, GetCollectedFees,
    GetFeePoolCommunityCoins, GetTotalRewards, call.
  cbn [bind].
  destruct (DecCoins.TruncateDecimal (feePoolCommunityCoins ctx)) as [cw cr].
  cbn [bind].
  destruct (DecCoins.TruncateDecimal (totalRewards ctx)) as [rw rr].
  cbn [fst snd].
  destruct (DecCoins.TruncateDecimal (DecCoins.Add cr rr)) as [carry dropped].
  cbn [fst]. rewrite IsEqual_dec.
  match goal with
  | |- context [Coins_eq_dec ?a ?b] => destruct (Coins_eq_dec a b)
  end; reflexivity.
Qed.

Lemma AllInvariants_run (ctx : Context) :
  AllInvariants ctx =
  match fst (SupplierInvariants ctx) with
  | Some e => (Some e, snd (SupplierInvariants ctx))
  | None =>
      (fst (TotalSupplyInvariant ctx),
       snd (SupplierInvariants ctx) ++ snd (TotalSupplyInvariant ctx))
  end.
Proof.
  unfold AllInvariants.
  destruct (SupplierInvariants ctx) as [[e|] t1]; cbn [bind fst snd ret].
  - now rewrite app_nil_r.
  - destruct (TotalSupplyInvariant ctx) as [[e|] t2]; cbn [bind fst snd ret];
      now rewrite app_nil_r.
Qed.

(** The end-to-end scenario of the specification: both checks succeed. *)
Example consistent_passes :
  AllInvariants Scenario.consistent =
  (None,
   [CallGetSupplier; CallIterateAccounts;
    CallGetSupplier; CallBondDenom; CallTotalBondedTokens;
    CallGetCollectedFees; CallGetFeePoolCommunityCoins; CallGetTotalRewards]).
Proof. reflexivity. Qed.

(** The iteration primitive does stop on a callback that asks for it. *)
Example iterate_stops :
  iterate (fun (n : nat) (_ : auth.Account) => (S n, true))
    (accounts Scenario.consistent) O = 1%nat.
Proof. reflexivity. Qed.

Example fractional_passes :
  fst (TotalSupplyInvariant Scenario.fractional) = None.
Proof. reflexivity. Qed.

End InvariantFacts.

(** ** Properties of the checks *)

Module Properties.

Import sdk keeper CoinsFacts AggregatorFacts InvariantFacts.

(** Adding a valid, non-empty vector changes a vector. *)
Lemma Add_changes (cs delta : Coins) :
  IsValid delta = true -> delta <> [] -> Coins.Add cs delta <> cs.
Proof.
  intros V N E. destruct delta as [|c rest]; [now apply N|].
  unfold IsValid in V. apply andb_true_iff in V. destruct V as [S P].
  cbn [sorted] in S. cbn [forallb] in P.
  apply andb_true_iff in P. destruct P as [P _]. apply Z.ltb_lt in P.
  assert (H : AmountOf (Denom c) (Coins.Add cs (c :: rest)) =
              AmountOf (Denom c) cs) by now rewrite E.
  rewrite AmountOf_Add, (AmountOf_head _ _ S) in H. lia.
Qed.

Lemma aggregate_withSupplier (ctx : Context) (sup : Supplier) :
  aggregate (withSupplier ctx sup) = aggregate ctx.
Proof. reflexivity. Qed.

(** C1: the total-supply check rebuilds the total as circulating supply +
    modules supply + bonded stake + collected fees + whole community pool +
    whole rewards + the whole part of the two remainders added up; it
    succeeds exactly when the recorded [TotalSupply] is that vector, and
    otherwise its error carries the recorded and the rebuilt vector. *)
Theorem TotalSupplyInvariant_reconstructed (ctx : Context) :
  fst (TotalSupplyInvariant ctx) =
    (if Coins_eq_dec (TotalSupply (supplier ctx)) (reconstructed ctx)
     then None
     else Some (Errorf totalFormat
                  [TotalSupply (supplier ctx); reconstructed ctx]))
  /\ (fst (TotalSupplyInvariant ctx) = None <->
      TotalSupply (supplier ctx) = reconstructed ctx).
Proof.
  rewrite TotalSupplyInvariant_run. cbn [fst]. unfold totalSupplyCheck.
  split; [reflexivity|].
  destruct (Coins_eq_dec (TotalSupply (supplier ctx)) (reconstructed ctx));
    split; intros H; auto; [discriminate | contradiction].
Qed.

(** C2: the supplier check succeeds exactly when the three recorded fields
    are the three aggregated sums; the first field that differs is the one
    its error names, with the recorded and the computed vector; and
    changing one field of a passing record by a non-empty valid vector
    makes the check fail on that field. *)
Theorem SupplierInvariants_fields (ctx : Context) :
  let sup := supplier ctx in
  let sums := aggregate ctx in
  let outcome := fst (SupplierInvariants ctx) in
  (outcome = None <->
     CirculatingSupply sup = circulatingAmount sums /\
     ModulesSupply sup = modulesAmount sums /\
     InitialVestingSupply sup = initialVestingAmount sums)
  /\ (CirculatingSupply sup <> circulatingAmount sums ->
      outcome = Some (Errorf circulatingFormat
                        [CirculatingSupply sup; circulatingAmount sums]))
  /\ (CirculatingSupply sup = circulatingAmount sums ->
      ModulesSupply sup <> modulesAmount sums ->
      outcome = Some (Errorf modulesFormat
                        [ModulesSupply sup; modulesAmount sums]))
  /\ (CirculatingSupply sup = circulatingAmount sums ->
      ModulesSupply sup = modulesAmount sums ->
      InitialVestingSupply sup <> initialVestingAmount sums ->
      outcome = Some (Errorf vestingFormat
                        [InitialVestingSupply sup; initialVestingAmount sums]))
  /\ (forall delta : Coins,
        outcome = None -> IsValid delta = true -> delta <> [] ->
        fst (SupplierInvariants
               (withSupplier ctx
                  (withCirculatingSupply sup
                     (Coins.Add (CirculatingSupply sup) delta)))) =
          Some (Errorf circulatingFormat
                  [Coins.Add (CirculatingSupply sup) delta;
                   circulatingAmount sums]) /\
        fst (SupplierInvariants
               (withSupplier ctx
                  (withModulesSupply sup
                     (Coins.Add (ModulesSupply sup) delta)))) =
          Some (Errorf modulesFormat
                  [Coins.Add (ModulesSupply sup) delta; modulesAmount sums]) /\
        fst (SupplierInvariants
               (withSupplier ctx
                  (withInitialVestingSupply sup
                     (Coins.Add (InitialVestingSupply sup) delta)))) =
          Some (Errorf vestingFormat
                  [Coins.Add (InitialVestingSupply sup) delta;
                   initialVestingAmount sums])).
Proof.
  intros sup sums outcome.
  assert (Hout : outcome = supplierCheck sup sums).
  { unfold outcome. now rewrite SupplierInvariants_run. }
  rewrite Hout. split; [apply supplierCheck_None|].
  split; [apply supplierCheck_circulating|].
  split; [apply supplierCheck_modules|].
  split; [apply supplierCheck_vesting|].
  intros delta H V N. apply supplierCheck_None in H. destruct H as (Ec & Em & Ev).
  rewrite !SupplierInvariants_run, !aggregate_withSupplier. cbn [fst]. fold sums.
  split; [|split].
  - apply supplierCheck_circulating.
    change (Coins.Add (CirculatingSupply sup) delta <> circulatingAmount sums).
    rewrite <- Ec. now apply Add_changes.
  - apply supplierCheck_modules; [exact Ec|].
    change (Coins.Add (ModulesSupply sup) delta <> modulesAmount sums).
    rewrite <- Em. now apply Add_changes.
  - apply supplierCheck_vesting; [exact Ec|exact Em|].
    change (Coins.Add (InitialVestingSupply sup) delta <> initialVestingAmount sums).
    rewrite <- Ev. now apply Add_changes.
Qed.

(** The under-recorded scenario fails on the circulating supply, with
    99 atom recorded against 100 atom computed. *)
Lemma SupplierInvariants_fields_witness :
  fst (SupplierInvariants Scenario.underRecorded) =
  Some (Errorf circulatingFormat [Scenario.atom 99; Scenario.atom 100]).
Proof.
  apply (proj1 (proj2 (SupplierInvariants_fields Scenario.underRecorded))).
  discriminate.
Defined.

(** C3: the original vesting amount of a vesting account enters the
    initial-vesting sum exactly when its end time is after the block time.
    At the step that meets the account the sum is left as it is when the
    end time is at or before the block time, and gets the whole original
    amount otherwise; wherever the account stands in the population, the
    final sum holds, of every denomination, what it holds without the
    account plus nothing or plus the whole original amount. *)
Theorem initialVesting_contribution (ctx : Context) (st : Amounts)
    (l1 l2 : list auth.Account) (acc : auth.Account)
    (vacc : auth.VestingAccount) (d : string) :
  auth.asVestingAccount acc = Some vacc ->
  let withAcc :=
    initialVestingAmount (iterate (process ctx) (l1 ++ acc :: l2) noAmounts) in
  let withoutAcc :=
    initialVestingAmount (iterate (process ctx) (l1 ++ l2) noAmounts) in
  (auth.GetEndTime vacc <= BlockTime ctx ->
     initialVestingAmount (fst (process ctx st acc)) = initialVestingAmount st /\
     AmountOf d withAcc = AmountOf d withoutAcc)
  /\ (BlockTime ctx < auth.GetEndTime vacc ->
     initialVestingAmount (fst (process ctx st acc)) =
       Coins.Add (initialVestingAmount st) (auth.GetOriginalVesting vacc) /\
     AmountOf d withAcc =
       AmountOf d withoutAcc + AmountOf d (auth.GetOriginalVesting vacc)).
Proof.
  intros Hv withAcc withoutAcc.
  assert (Hsum : AmountOf d withAcc =
                 AmountOf d withoutAcc + vestingOf (BlockTime ctx) d acc).
  { unfold withAcc, withoutAcc.
    destruct (AmountOf_iterate ctx d (l1 ++ acc :: l2) noAmounts) as (_ & _ & H1).
    destruct (AmountOf_iterate ctx d (l1 ++ l2) noAmounts) as (_ & _ & H2).
    rewrite H1, H2, !sumOver_app. cbn [sumOver fold_right].
    fold (sumOver (vestingOf (BlockTime ctx) d) l2). lia. }
  unfold vestingOf in Hsum. rewrite Hv in Hsum.
  rewrite process_initialVesting, Hv.
  split; intros Ht.
  - apply Z.ltb_ge in Ht. rewrite Ht in *. split; [reflexivity|lia].
  - apply Z.ltb_lt in Ht. rewrite Ht in *. split; [reflexivity|lia].
Qed.

Lemma initialVesting_contribution_witness :
  let ctx := Scenario.consistent in
  let locked := Scenario.vestingAccount (Scenario.atom 30) (Scenario.atom 20) 100 in
  let l1 := [Scenario.basicAccount (Scenario.atom 1)] in
  let l2 := [Scenario.moduleAccount (Scenario.atom 2)] in
  AmountOf "atom"
    (initialVestingAmount (iterate (process ctx) (l1 ++ locked :: l2) noAmounts)) =
  AmountOf "atom"
    (initialVestingAmount (iterate (process ctx) (l1 ++ l2) noAmounts)) + 20.
Proof.
  intros ctx locked l1 l2.
  refine (proj2 (proj2 (initialVesting_contribution ctx noAmounts l1 l2 locked
            {| auth.GetOriginalVesting := Scenario.atom 20;
               auth.GetEndTime := 100 |} "atom" eq_refl) _)).
  reflexivity.
Defined.

(** C4: an account that is module-owned and vesting has its coins added to
    the modules sum and not to the circulating sum, and its original
    vesting amount added to the initial-vesting sum while its end time is
    after the block time.  The two classifications do not look at each
    other: the vesting update is the same for a module account as for any
    other, and the circulating/modules update the same for a vesting
    account as for any other. *)
Theorem module_vesting_account (ctx : Context) (st : Amounts)
    (acc : auth.Account) (vacc : auth.VestingAccount) :
  auth.isModuleAccount acc = true ->
  auth.asVestingAccount acc = Some vacc ->
  let st' := fst (process ctx st acc) in
  modulesAmount st' = Coins.Add (modulesAmount st) (auth.GetCoins acc)
  /\ circulatingAmount st' = circulatingAmount st
  /\ (BlockTime ctx < auth.GetEndTime vacc ->
      initialVestingAmount st' =
      Coins.Add (initialVestingAmount st) (auth.GetOriginalVesting vacc))
  /\ (auth.GetEndTime vacc <= BlockTime ctx ->
      initialVestingAmount st' = initialVestingAmount st)
  /\ (forall other : auth.Account,
        auth.asVestingAccount other = auth.asVestingAccount acc ->
        initialVestingAmount (fst (process ctx st other)) =
        initialVestingAmount st')
  /\ (forall other : auth.Account,
        auth.isModuleAccount other = auth.isModuleAccount acc ->
        auth.GetCoins other = auth.GetCoins acc ->
        circulatingAmount (fst (process ctx st other)) = circulatingAmount st' /\
        modulesAmount (fst (process ctx st other)) = modulesAmount st').
Proof.
  intros Hm Hv st'. unfold st'.
  rewrite process_modules, process_circulating, process_initialVesting, Hm, Hv.
  split; [reflexivity|]. split; [reflexivity|].
  split; [|split; [|split]].
  - intros Ht. apply Z.ltb_lt in Ht. now rewrite Ht.
  - intros Ht. apply Z.ltb_ge in Ht. now rewrite Ht.
  - intros other Ho. now rewrite process_initialVesting, Ho.
  - intros other Ho Hcoins.
    now rewrite process_circulating, process_modules, Ho, Hcoins.
Qed.

Lemma module_vesting_account_witness :
  let acc := Scenario.moduleVestingAccount (Scenario.atom 7) (Scenario.atom 5) 100 in
  let st' := fst (process Scenario.consistent noAmounts acc) in
  modulesAmount st' = Scenario.atom 7 /\
  circulatingAmount st' = [] /\
  initialVestingAmount st' = Scenario.atom 5.
Proof.
  intros acc st'.
  pose proof (module_vesting_account Scenario.consistent noAmounts acc
                {| auth.GetOriginalVesting := Scenario.atom 5;
                   auth.GetEndTime := 100 |} eq_refl eq_refl) as H.
  destruct H as (Hm & Hc & Hv & _).
  split; [exact Hm|]. split; [exact Hc|]. apply Hv. reflexivity.
Defined.

(** C9: the callback of the account fold answers [false] for every account,
    so the iteration never stops early: it is the fold of the callback
    over the whole population, and an account at any position is handed to
    the callback, in the state the accounts before it have left, with the
    accounts after it still to come. *)
Theorem fold_never_stops (ctx : Context) :
  (forall (st : Amounts) (acc : auth.Account), snd (process ctx st acc) = false)
  /\ (forall (accs : list auth.Account) (st : Amounts),
        iterate (process ctx) accs st =
        fold_left (fun s acc => fst (process ctx s acc)) accs st)
  /\ (forall (l1 l2 : list auth.Account) (acc : auth.Account) (st : Amounts),
        iterate (process ctx) (l1 ++ acc :: l2) st =
        iterate (process ctx) l2
          (fst (process ctx (iterate (process ctx) l1 st) acc)))
  /\ (forall (d : string),
        AmountOf d (circulatingAmount (aggregate ctx)) =
          sumOver (circulatingOf d) (accounts ctx) /\
        AmountOf d (modulesAmount (aggregate ctx)) =
          sumOver (modulesOf d) (accounts ctx) /\
        AmountOf d (initialVestingAmount (aggregate ctx)) =
          sumOver (vestingOf (BlockTime ctx) d) (accounts ctx)).
Proof.
  split; [intros; apply process_continue|].
  split; [intros; apply iterate_fold|].
  split.
  - intros l1 l2 acc st. rewrite iterate_app. apply iterate_cons.
  - intros d. unfold aggregate.
    destruct (AmountOf_iterate ctx d (accounts ctx) noAmounts) as (Hc & Hm & Hv).
    rewrite Hc, Hm, Hv. cbn. repeat split.
Qed.

(** C5: when the community pool leaves a remainder of 0.6 and the pending
    rewards a remainder of 0.5 of one denomination, the two add up to 1.1,
    whose truncation is a carry of 1 with 0.1 left over; the rebuilt total
    ends with that carry, so that it holds one unit of the denomination
    more than the other six terms together. *)
Theorem remainders_carry (ctx : Context) (X : string) :
  snd (DecCoins.TruncateDecimal (feePoolCommunityCoins ctx)) =
    [NewDecCoinFromDec X (NewDecWithPrec 6 1)] ->
  snd (DecCoins.TruncateDecimal (totalRewards ctx)) =
    [NewDecCoinFromDec X (NewDecWithPrec 5 1)] ->
  let bonded := NewCoins (NewCoin (bondDenom ctx) (totalBondedTokens ctx)) in
  let communityWhole := fst (DecCoins.TruncateDecimal (feePoolCommunityCoins ctx)) in
  let rewardsWhole := fst (DecCoins.TruncateDecimal (totalRewards ctx)) in
  DecCoins.TruncateDecimal
    (DecCoins.Add [NewDecCoinFromDec X (NewDecWithPrec 6 1)]
                  [NewDecCoinFromDec X (NewDecWithPrec 5 1)]) =
    ([NewCoin X 1], [NewDecCoinFromDec X (NewDecWithPrec 1 1)])
  /\ reconstructed ctx =
     Coins.Add (Coins.Add (Coins.Add (Coins.Add (Coins.Add (Coins.Add
       (CirculatingSupply (supplier ctx))
       (ModulesSupply (supplier ctx)))
       bonded)
       (collectedFees ctx))
       communityWhole)
       rewardsWhole)
       [NewCoin X 1]
  /\ AmountOf X (reconstructed ctx) =
     AmountOf X (CirculatingSupply (supplier ctx)) +
     AmountOf X (ModulesSupply (supplier ctx)) +
     AmountOf X bonded +
     AmountOf X (collectedFees ctx) +
     AmountOf X communityWhole +
     AmountOf X rewardsWhole + 1
  /\ (fst (TotalSupplyInvariant ctx) = None <->
      TotalSupply (supplier ctx) = reconstructed ctx).
Proof.
  intros Hc Hr bonded communityWhole rewardsWhole.
  assert (Hcarry : DecCoins.TruncateDecimal
            (DecCoins.Add [NewDecCoinFromDec X (NewDecWithPrec 6 1)]
                          [NewDecCoinFromDec X (NewDecWithPrec 5 1)]) =
            ([NewCoin X 1], [NewDecCoinFromDec X (NewDecWithPrec 1 1)])).
  { rewrite DecCoins_Add_same_denom. vm_compute. reflexivity. }
  assert (Hrec : reconstructed ctx =
     Coins.Add (Coins.Add (Coins.Add (Coins.Add (Coins.Add (Coins.Add
       (CirculatingSupply (supplier ctx))
       (ModulesSupply (supplier ctx)))
       bonded)
       (collectedFees ctx))
       communityWhole)
       rewardsWhole)
       [NewCoin X 1]).
  { unfold reconstructed. rewrite Hc, Hr, Hcarry. reflexivity. }
  split; [exact Hcarry|]. split; [exact Hrec|]. split.
  - rewrite Hrec, !AmountOf_Add. cbn [AmountOf Denom Amount].
    rewrite String.eqb_refl. lia.
  - rewrite TotalSupplyInvariant_run. cbn [fst]. unfold totalSupplyCheck.
    destruct (Coins_eq_dec (TotalSupply (supplier ctx)) (reconstructed ctx));
      split; intros H; auto; [discriminate | contradiction].
Qed.

Lemma remainders_carry_witness :
  reconstructed Scenario.fractional = Scenario.atom 6 /\
  AmountOf "atom" (reconstructed Scenario.fractional) = 0 + 0 + 0 + 0 + 2 + 3 + 1.
Proof.
  pose proof (remainders_carry Scenario.fractional "atom" eq_refl eq_refl) as H.
  destruct H as (_ & Hrec & Hamount & _).
  split; [rewrite Hrec; reflexivity | exact Hamount].
Defined.

(** C6: the circulating sum and the modules sum add up to the sum of all
    holdings.  Of every denomination the circulating sum holds the coins of
    the accounts that are not module-owned and the modules sum those of the
    module-owned ones, so that the two together hold what the sum of all
    holdings holds, nothing dropped and nothing counted twice; for a
    population of valid coin vectors the two sides are the same vector. *)
Theorem circulating_plus_modules (ctx : Context) :
  (forall d : string,
     AmountOf d (circulatingAmount (aggregate ctx)) =
       sumOver (circulatingOf d) (accounts ctx) /\
     AmountOf d (modulesAmount (aggregate ctx)) =
       sumOver (modulesOf d) (accounts ctx) /\
     AmountOf d (Coins.Add (circulatingAmount (aggregate ctx))
                   (modulesAmount (aggregate ctx))) =
       AmountOf d (holdingsSum (accounts ctx)))
  /\ (forallb validAccount (accounts ctx) = true ->
      Coins.Add (circulatingAmount (aggregate ctx)) (modulesAmount (aggregate ctx)) =
      holdingsSum (accounts ctx)).
Proof.
  assert (Hd : forall d : string,
     AmountOf d (circulatingAmount (aggregate ctx)) =
       sumOver (circulatingOf d) (accounts ctx) /\
     AmountOf d (modulesAmount (aggregate ctx)) =
       sumOver (modulesOf d) (accounts ctx) /\
     AmountOf d (Coins.Add (circulatingAmount (aggregate ctx))
                   (modulesAmount (aggregate ctx))) =
       AmountOf d (holdingsSum (accounts ctx))).
  { intros d. rewrite AmountOf_Add. unfold aggregate, holdingsSum.
    destruct (AmountOf_iterate ctx d (accounts ctx) noAmounts) as (Hc & Hm & _).
    rewrite Hc, Hm, holdings_fold, sumOver_split. cbn. repeat split. }
  split; [exact Hd|]. intros Hv.
  pose proof (aggregate_sorted ctx Hv) as Hs.
  unfold sortedAmounts in Hs. rewrite !andb_true_iff in Hs.
  destruct Hs as [[Sc Sm] _].
  apply Coins_ext.
  - now apply sorted_Add.
  - apply nonZero_Add.
  - now apply holdings_sorted.
  - now apply holdings_nonZero.
  - intros d. apply (Hd d).
Qed.

Lemma circulating_plus_modules_witness :
  let ctx := withAccounts Scenario.consistent Scenario.vesters in
  Coins.Add (circulatingAmount (aggregate ctx)) (modulesAmount (aggregate ctx)) =
  [NewCoin "atom" 42; NewCoin "stake" 2].
Proof.
  intros ctx.
  rewrite (proj2 (circulating_plus_modules ctx) eq_refl). reflexivity.
Defined.

(** C7: the three sums do not depend on the order in which the accounts
    are yielded.  For two orderings of one population each sum holds the
    same amount of every denomination; when the coin vectors of the
    accounts are valid the fold ends in the same three vectors, and the
    supplier check in the same outcome.  Underneath, addition of ordered
    coin vectors is commutative and associative. *)
Theorem aggregate_order_independent (ctx : Context) (l1 l2 : list auth.Account) :
  Permutation l1 l2 ->
  (forall d : string,
     AmountOf d (circulatingAmount (aggregate (withAccounts ctx l1))) =
       AmountOf d (circulatingAmount (aggregate (withAccounts ctx l2))) /\
     AmountOf d (modulesAmount (aggregate (withAccounts ctx l1))) =
       AmountOf d (modulesAmount (aggregate (withAccounts ctx l2))) /\
     AmountOf d (initialVestingAmount (aggregate (withAccounts ctx l1))) =
       AmountOf d (initialVestingAmount (aggregate (withAccounts ctx l2))))
  /\ (forallb validAccount l1 = true ->
      aggregate (withAccounts ctx l1) = aggregate (withAccounts ctx l2) /\
      SupplierInvariants (withAccounts ctx l1) =
      SupplierInvariants (withAccounts ctx l2))
  /\ (forall a b : Coins, sorted a = true -> sorted b = true ->
        Coins.Add a b = Coins.Add b a)
  /\ (forall a b c : Coins, sorted a = true -> sorted b = true -> sorted c = true ->
        Coins.Add (Coins.Add a b) c = Coins.Add a (Coins.Add b c)).
Proof.
  intros P.
  assert (Hd : forall d : string,
     AmountOf d (circulatingAmount (aggregate (withAccounts ctx l1))) =
       AmountOf d (circulatingAmount (aggregate (withAccounts ctx l2))) /\
     AmountOf d (modulesAmount (aggregate (withAccounts ctx l1))) =
       AmountOf d (modulesAmount (aggregate (withAccounts ctx l2))) /\
     AmountOf d (initialVestingAmount (aggregate (withAccounts ctx l1))) =
       AmountOf d (initialVestingAmount (aggregate (withAccounts ctx l2)))).
  { intros d. unfold aggregate.
    destruct (AmountOf_iterate (withAccounts ctx l1) d
                (accounts (withAccounts ctx l1)) noAmounts) as (C1 & M1 & I1).
    destruct (AmountOf_iterate (withAccounts ctx l2) d
                (accounts (withAccounts ctx l2)) noAmounts) as (C2 & M2 & I2).
    rewrite C1, M1, I1, C2, M2, I2. cbn [accounts withAccounts BlockTime].
    rewrite (sumOver_Permutation (circulatingOf d) l1 l2 P).
    rewrite (sumOver_Permutation (modulesOf d) l1 l2 P).
    rewrite (sumOver_Permutation (vestingOf (BlockTime ctx) d) l1 l2 P).
    repeat split. }
  split; [exact Hd|]. split; [|split; [exact Add_comm | exact Add_assoc]].
  intros V1.
  assert (V2 : forallb validAccount l2 = true)
    by now apply forallb_Permutation with l1.
  assert (E : aggregate (withAccounts ctx l1) = aggregate (withAccounts ctx l2)).
  { apply Amounts_ext; try apply aggregate_nonZero;
      try (now apply aggregate_sorted). exact Hd. }
  split; [exact E|]. rewrite !SupplierInvariants_run, E. reflexivity.
Qed.

Lemma aggregate_order_independent_witness :
  aggregate (withAccounts Scenario.consistent Scenario.vesters) =
  aggregate (withAccounts Scenario.consistent (rev Scenario.vesters)).
Proof.
  apply (proj1 (proj2 (aggregate_order_independent Scenario.consistent
           Scenario.vesters (rev Scenario.vesters)
           (Permutation_rev Scenario.vesters)))).
  reflexivity.
Defined.

(** C10: the combined check succeeds exactly when the supplier check and
    the total-supply check both succeed.  When the supplier check fails,
    the combined check returns that failure after the keeper calls of the
    supplier check alone: the total-supply check is not run, whatever it
    would have answered.  When the supplier check succeeds, the combined
    check answers what the total-supply check answers. *)
Theorem AllInvariants_both (ctx : Context) :
  (fst (AllInvariants ctx) = None <->
     fst (SupplierInvariants ctx) = None /\ fst (TotalSupplyInvariant ctx) = None)
  /\ (forall e : Error,
        fst (SupplierInvariants ctx) = Some e ->
        AllInvariants ctx = (Some e, [CallGetSupplier; CallIterateAccounts]) /\
        AllInvariants ctx = SupplierInvariants ctx)
  /\ (fst (SupplierInvariants ctx) = None ->
        AllInvariants ctx =
        (fst (TotalSupplyInvariant ctx),
         [CallGetSupplier; CallIterateAccounts;
          CallGetSupplier; CallBondDenom; CallTotalBondedTokens;
          CallGetCollectedFees; CallGetFeePoolCommunityCoins;
          CallGetTotalRewards])).
Proof.
  rewrite AllInvariants_run.
  assert (Ht : snd (SupplierInvariants ctx) = [CallGetSupplier; CallIterateAccounts])
    by now rewrite SupplierInvariants_run.
  assert (Hu : snd (TotalSupplyInvariant ctx) =
               [CallGetSupplier; CallBondDenom; CallTotalBondedTokens;
                CallGetCollectedFees; CallGetFeePoolCommunityCoins;
                CallGetTotalRewards])
    by now rewrite TotalSupplyInvariant_run.
  rewrite Hu. destruct (SupplierInvariants ctx) as [[e|] t]; cbn [fst snd] in *.
  - subst t. split; [split; [discriminate|intros [H _]; discriminate]|].
    split; [|discriminate].
    intros e' H. injection H as <-. split; reflexivity.
  - subst t. split; [tauto|]. split; [discriminate|reflexivity].
Qed.

Lemma AllInvariants_both_witness :
  AllInvariants Scenario.doublyWrong =
    (Some (Errorf circulatingFormat [Scenario.atom 99; Scenario.atom 100]),
     [CallGetSupplier; CallIterateAccounts])
  /\ fst (TotalSupplyInvariant Scenario.doublyWrong) =
     Some (Errorf totalFormat [Scenario.atom 1; Scenario.atom 149]).
Proof.
  split; [|reflexivity].
  apply (proj1 (proj2 (AllInvariants_both Scenario.doublyWrong))).
  reflexivity.
Defined.

End Properties.

(** ** Fractional Coin Vector arithmetic *)

Module DecCoinsFacts.

Import sdk keeper Quantities CoinsFacts.

Lemma DecAdd_nil_l (b : DecCoins) : DecCoins.Add [] b = removeZeroDecCoins b.
Proof. destruct b; reflexivity. Qed.

Lemma DecAdd_nil_r (a : DecCoins) : DecCoins.Add a [] = removeZeroDecCoins a.
Proof. destruct a; reflexivity. Qed.

Lemma OneDec_pos : 0 < OneDec.
Proof. reflexivity. Qed.

(** *** Amounts *)

Lemma DecAmountOf_appendNonZeroDec (d : string) (c : DecCoin) (cs : DecCoins) :
  DecAmountOf d (appendNonZeroDec c cs) = DecAmountOf d (c :: cs).
Proof.
  unfold appendNonZeroDec. cbn [DecAmountOf].
  destruct (Z.eqb_spec (DecAmount c) 0) as [E|E]; [|reflexivity].
  rewrite E. destruct (String.eqb (DecDenom c) d); reflexivity.
Qed.

Lemma DecAmountOf_removeZeroDecCoins (d : string) (cs : DecCoins) :
  DecAmountOf d (removeZeroDecCoins cs) = DecAmountOf d cs.
Proof.
  induction cs as [|c rest IH]; [reflexivity|].
  cbn [removeZeroDecCoins]. rewrite DecAmountOf_appendNonZeroDec.
  cbn [DecAmountOf]. now rewrite IH.
Qed.

Lemma DecAmountOf_Add (d : string) (a b : DecCoins) :
  DecAmountOf d (DecCoins.Add a b) = DecAmountOf d a + DecAmountOf d b.
Proof.
  revert b. induction a as [|ca ta IHa]; intros b.
  - rewrite DecAdd_nil_l, DecAmountOf_removeZeroDecCoins. reflexivity.
  - induction b as [|cb tb IHb].
    + rewrite DecAdd_nil_r, DecAmountOf_removeZeroDecCoins. cbn [DecAmountOf]. lia.
    + rewrite DecCoins_Add_cons_cons.
      destruct (String.compare (DecDenom ca) (DecDenom cb)) eqn:E;
        rewrite DecAmountOf_appendNonZeroDec; cbn [DecAmountOf].
      * apply String.compare_eq_iff in E. rewrite IHa, <- E.
        cbn [DecDenom DecAmount].
        destruct (String.eqb (DecDenom ca) d); lia.
      * rewrite IHa. cbn [DecAmountOf]. lia.
      * rewrite IHb. cbn [DecAmountOf]. lia.
Qed.

(** *** Order of the denominations *)

Lemma decSortedFrom_cons (d : string) (c : DecCoin) (cs : DecCoins) :
  decSortedFrom d (c :: cs) = true <->
  String.compare d (DecDenom c) = Lt /\ decSortedFrom (DecDenom c) cs = true.
Proof.
  cbn [decSortedFrom]. destruct (String.compare d (DecDenom c)); split;
    intros H; try discriminate; try (destruct H; discriminate); auto.
  now destruct H.
Qed.

Lemma decSortedFrom_weaken (d d' : string) (cs : DecCoins) :
  String.compare d d' = Lt -> decSortedFrom d' cs = true ->
  decSortedFrom d cs = true.
Proof.
  intros Hd H. destruct cs as [|c rest]; [reflexivity|].
  apply decSortedFrom_cons in H. destruct H as [H1 H2].
  apply decSortedFrom_cons. split; [|exact H2].
  now apply compare_trans with d'.
Qed.

Lemma decSortedFrom_decSorted (d : string) (cs : DecCoins) :
  decSortedFrom d cs = true -> decSorted cs = true.
Proof.
  destruct cs as [|c rest]; [reflexivity|].
  intros H. apply decSortedFrom_cons in H. now destruct H.
Qed.

Lemma decSortedFrom_appendNonZeroDec (d : string) (c : DecCoin) (cs : DecCoins) :
  String.compare d (DecDenom c) = Lt -> decSortedFrom (DecDenom c) cs = true ->
  decSortedFrom d (appendNonZeroDec c cs) = true.
Proof.
  intros Hd H. unfold appendNonZeroDec. destruct (DecAmount c =? 0).
  - now apply decSortedFrom_weaken with (DecDenom c).
  - now apply decSortedFrom_cons.
Qed.

Lemma decSorted_appendNonZeroDec (c : DecCoin) (cs : DecCoins) :
  decSortedFrom (DecDenom c) cs = true -> decSorted (appendNonZeroDec c cs) = true.
Proof.
  intros H. unfold appendNonZeroDec. destruct (DecAmount c =? 0).
  - now apply decSortedFrom_decSorted with (DecDenom c).
  - exact H.
Qed.

Lemma decSortedFrom_removeZeroDecCoins (d : string) (cs : DecCoins) :
  decSortedFrom d cs = true -> decSortedFrom d (removeZeroDecCoins cs) = true.
Proof.
  revert d. induction cs as [|c rest IH]; intros d H; [reflexivity|].
  apply decSortedFrom_cons in H. destruct H as [H1 H2].
  cbn [removeZeroDecCoins]. apply decSortedFrom_appendNonZeroDec; auto.
Qed.

Lemma decSorted_removeZeroDecCoins (cs : DecCoins) :
  decSorted cs = true -> decSorted (removeZeroDecCoins cs) = true.
Proof.
  destruct cs as [|c rest]; [reflexivity|]. intros H.
  cbn [removeZeroDecCoins]. apply decSorted_appendNonZeroDec.
  now apply decSortedFrom_removeZeroDecCoins.
Qed.

Lemma decSortedFrom_Add (a b : DecCoins) (d : string) :
  decSortedFrom d a = true -> decSortedFrom d b = true ->
  decSortedFrom d (DecCoins.Add a b) = true.
Proof.
  revert b d. induction a as [|ca ta IHa]; intros b.
  - intros d _ Hb. rewrite DecAdd_nil_l. now apply decSortedFrom_removeZeroDecCoins.
  - induction b as [|cb tb IHb]; intros d Ha Hb.
    + rewrite DecAdd_nil_r. now apply decSortedFrom_removeZeroDecCoins.
    + rewrite DecCoins_Add_cons_cons.
      apply decSortedFrom_cons in Ha. destruct Ha as [Ha1 Ha2].
      apply decSortedFrom_cons in Hb. destruct Hb as [Hb1 Hb2].
      destruct (String.compare (DecDenom ca) (DecDenom cb)) eqn:E.
      * apply String.compare_eq_iff in E.
        apply decSortedFrom_appendNonZeroDec; [exact Ha1|]. cbn [DecDenom].
        apply IHa; [exact Ha2|]. now rewrite E.
      * apply decSortedFrom_appendNonZeroDec; [exact Ha1|].
        apply IHa; [exact Ha2|]. now apply decSortedFrom_cons.
      * apply decSortedFrom_appendNonZeroDec; [exact Hb1|].
        apply IHb; [|exact Hb2].
        apply decSortedFrom_cons. split; [now apply compare_Gt_Lt|exact Ha2].
Qed.

Lemma decSorted_Add (a b : DecCoins) :
  decSorted a = true -> decSorted b = true -> decSorted (DecCoins.Add a b) = true.
Proof.
  intros Ha Hb. destruct a as [|ca ta].
  - rewrite DecAdd_nil_l. now apply decSorted_removeZeroDecCoins.
  - destruct b as [|cb tb].
    + rewrite DecAdd_nil_r. now apply decSorted_removeZeroDecCoins.
    + rewrite DecCoins_Add_cons_cons. cbn [decSorted] in Ha, Hb.
      destruct (String.compare (DecDenom ca) (DecDenom cb)) eqn:E;
        apply decSorted_appendNonZeroDec.
      * apply String.compare_eq_iff in E. cbn [DecDenom].
        apply decSortedFrom_Add; [exact Ha|]. now rewrite E.
      * apply decSortedFrom_Add; [exact Ha|]. now apply decSortedFrom_cons.
      * apply decSortedFrom_Add; [|exact Hb].
        apply decSortedFrom_cons. split; [now apply compare_Gt_Lt|exact Ha].
Qed.

Lemma DecAmountOf_decSortedFrom (d : string) (cs : DecCoins) :
  decSortedFrom d cs = true -> DecAmountOf d cs = 0.
Proof.
  induction cs as [|c rest IH]; [reflexivity|]. intros H.
  apply decSortedFrom_cons in H. destruct H as [H1 H2].
  cbn [DecAmountOf]. rewrite (compare_Lt_eqb _ _ H1).
  rewrite IH; [reflexivity|]. now apply decSortedFrom_weaken with (DecDenom c).
Qed.

(** *** Truncation *)

Lemma TruncateDecimal_cons (c : DecCoin) (rest : DecCoins) :
  DecCoins.TruncateDecimal (c :: rest) =
  (appendNonZero (NewCoin (DecDenom c) (Z.quot (DecAmount c) OneDec))
     (fst (DecCoins.TruncateDecimal rest)),
   appendNonZeroDec
     (NewDecCoinFromDec (DecDenom c)
        (DecAmount c - Z.quot (DecAmount c) OneDec * OneDec))
     (snd (DecCoins.TruncateDecimal rest))).
Proof.
  cbn [DecCoins.TruncateDecimal DecCoin_TruncateDecimal].
  now destruct (DecCoins.TruncateDecimal rest).
Qed.

Lemma TruncateDecimal_sortedFrom (d : string) (cs : DecCoins) :
  decSortedFrom d cs = true ->
  sortedFrom d (fst (DecCoins.TruncateDecimal cs)) = true /\
  decSortedFrom d (snd (DecCoins.TruncateDecimal cs)) = true.
Proof.
  revert d. induction cs as [|c rest IH]; intros d H; [split; reflexivity|].
  apply decSortedFrom_cons in H. destruct H as [H1 H2].
  rewrite TruncateDecimal_cons. cbn [fst snd].
  destruct (IH _ H2) as [IH1 IH2]. split.
  - now apply sortedFrom_appendNonZero.
  - now apply decSortedFrom_appendNonZeroDec.
Qed.

Lemma TruncateDecimal_sorted (cs : DecCoins) :
  decSorted cs = true ->
  sorted (fst (DecCoins.TruncateDecimal cs)) = true /\
  decSorted (snd (DecCoins.TruncateDecimal cs)) = true.
Proof.
  destruct cs as [|c rest]; [split; reflexivity|]. cbn [decSorted]. intros H.
  rewrite TruncateDecimal_cons. cbn [fst snd].
  destruct (TruncateDecimal_sortedFrom _ _ H) as [H1 H2]. split.
  - now apply sorted_appendNonZero.
  - now apply decSorted_appendNonZeroDec.
Qed.

Lemma TruncateDecimal_amounts (cs : DecCoins) (d : string) :
  decSorted cs = true ->
  AmountOf d (fst (DecCoins.TruncateDecimal cs)) =
    Z.quot (DecAmountOf d cs) OneDec /\
  DecAmountOf d (snd (DecCoins.TruncateDecimal cs)) =
    Z.rem (DecAmountOf d cs) OneDec.
Proof.
  induction cs as [|c rest IH]; intros H.
  - cbn. split; reflexivity.
  - cbn [decSorted] in H.
    destruct (IH (decSortedFrom_decSorted _ _ H)) as [IHq IHr].
    rewrite TruncateDecimal_cons. cbn [fst snd].
    rewrite AmountOf_appendNonZero, DecAmountOf_appendNonZeroDec.
    cbn [AmountOf DecAmountOf Denom Amount DecDenom DecAmount].
    rewrite IHq, IHr.
    destruct (String.eqb_spec (DecDenom c) d) as [E|E].
    + subst d. rewrite (DecAmountOf_decSortedFrom _ _ H).
      rewrite Z.quot_0_l, Z.rem_0_l, !Z.add_0_r by (pose proof OneDec_pos; lia).
      split; [reflexivity|].
      pose proof (Z.quot_rem' (DecAmount c) OneDec). lia.
    + split; reflexivity.
Qed.

Lemma DecAmountOf_nonneg (cs : DecCoins) (d : string) :
  forallb (fun c => 0 <=? DecAmount c) cs = true -> 0 <= DecAmountOf d cs.
Proof.
  induction cs as [|c rest IH]; cbn [forallb DecAmountOf]; [lia|].
  intros H. apply andb_true_iff in H. destruct H as [Hc Hrest].
  apply Z.leb_le in Hc. specialize (IH Hrest).
  destruct (String.eqb (DecDenom c) d); lia.
Qed.

Lemma DecIsValid_parts (cs : DecCoins) :
  DecIsValid cs = true ->
  decSorted cs = true /\ forall d, 0 <= DecAmountOf d cs.
Proof.
  unfold DecIsValid. intros H. apply andb_true_iff in H. destruct H as [S N].
  split; [exact S|]. intros d. now apply DecAmountOf_nonneg.
Qed.

(** Truncating two amounts and then the sum of their remainders yields
    the truncation of their sum. *)
Lemma two_stage_quot (a b u : Z) :
  0 <= a -> 0 <= b -> 0 < u ->
  Z.quot a u + Z.quot b u + Z.quot (Z.rem a u + Z.rem b u) u = (a + b) / u /\
  Z.rem (Z.rem a u + Z.rem b u) u = (a + b) mod u.
Proof.
  intros Ha Hb Hu.
  rewrite (Z.quot_div_nonneg a u), (Z.quot_div_nonneg b u) by lia.
  rewrite (Z.rem_mod_nonneg a u), (Z.rem_mod_nonneg b u) by lia.
  pose proof (Z.mod_pos_bound a u Hu) as Ma.
  pose proof (Z.mod_pos_bound b u Hu) as Mb.
  rewrite Z.quot_div_nonneg, Z.rem_mod_nonneg by lia.
  assert (E : a + b = (a / u + b / u) * u + (a mod u + b mod u)).
  { pose proof (Z.div_mod a u). pose proof (Z.div_mod b u). lia. }
  split.
  - rewrite E, Z.div_add_l by lia. lia.
  - rewrite E, (Z.add_comm ((a / u + b / u) * u)), Z.mod_add by lia.
    reflexivity.
Qed.

End DecCoinsFacts.

(** ** Further properties of the checks *)

Module MoreProperties.

Import sdk keeper Quantities CoinsFacts AggregatorFacts InvariantFacts DecCoinsFacts.

Lemma Add_valid_changes (cs delta : Coins) :
  IsValid delta = true -> delta <> [] -> Coins.Add cs delta <> cs.
Proof.
  intros V N E. destruct delta as [|c rest]; [now apply N|].
  apply andb_true_iff in V. destruct V as [S P].
  cbn [sorted] in S. cbn [forallb] in P.
  apply andb_true_iff in P. destruct P as [P _]. apply Z.ltb_lt in P.
  apply (f_equal (AmountOf (Denom c))) in E.
  rewrite AmountOf_Add, (AmountOf_head _ _ S) in E. lia.
Qed.

Lemma reconstructed_parts (ctx : Context) :
  reconstructed ctx =
  Coins.Add (Coins.Add (Coins.Add (Coins.Add (Coins.Add (Coins.Add
    (CirculatingSupply (supplier ctx))
    (ModulesSupply (supplier ctx)))
    (bondedSupply ctx))
    (collectedFees ctx))
    (communityWhole ctx))
    (rewardsWhole ctx))
    (carry ctx).
Proof. reflexivity. Qed.

Lemma AmountOf_reconstructed (d : string) (ctx : Context) :
  AmountOf d (reconstructed ctx) =
  AmountOf d (CirculatingSupply (supplier ctx)) +
  AmountOf d (ModulesSupply (supplier ctx)) +
  AmountOf d (bondedSupply ctx) +
  AmountOf d (collectedFees ctx) +
  AmountOf d (communityWhole ctx) +
  AmountOf d (rewardsWhole ctx) +
  AmountOf d (carry ctx).
Proof. rewrite reconstructed_parts, !AmountOf_Add. reflexivity. Qed.

Lemma AmountOf_bondedSupply (d : string) (ctx : Context) :
  AmountOf d (bondedSupply ctx) =
  if String.eqb (bondDenom ctx) d then totalBondedTokens ctx else 0.
Proof.
  unfold bondedSupply, NewCoins. rewrite AmountOf_removeZeroCoins.
  cbn [AmountOf Denom Amount]. lia.
Qed.

Lemma TotalSupplyInvariant_None (ctx : Context) :
  fst (TotalSupplyInvariant ctx) = None <->
  TotalSupply (supplier ctx) = reconstructed ctx.
Proof.
  rewrite TotalSupplyInvariant_run. cbn [fst]. unfold totalSupplyCheck.
  destruct (Coins_eq_dec (TotalSupply (supplier ctx)) (reconstructed ctx));
    split; intros H; auto; [discriminate | contradiction].
Qed.

Lemma SupplierInvariants_None (ctx : Context) :
  fst (SupplierInvariants ctx) = None <->
  CirculatingSupply (supplier ctx) = circulatingAmount (aggregate ctx) /\
  ModulesSupply (supplier ctx) = modulesAmount (aggregate ctx) /\
  InitialVestingSupply (supplier ctx) = initialVestingAmount (aggregate ctx).
Proof.
  rewrite SupplierInvariants_run. cbn [fst]. apply supplierCheck_None.
Qed.

Lemma AllInvariants_None (ctx : Context) :
  fst (AllInvariants ctx) = None <->
  fst (SupplierInvariants ctx) = None /\ fst (TotalSupplyInvariant ctx) = None.
Proof.
  rewrite AllInvariants_run.
  destruct (fst (SupplierInvariants ctx)) as [e|]; cbn [fst].
  - split; [discriminate|intros [H _]; discriminate].
  - tauto.
Qed.

(** X1: the whole parts and the carry together are the truncation of the two
    pools added up exactly: for valid pools the total-supply check counts,
    of every denomination, the whole units of community pool plus pending
    rewards, and the fraction it drops is what that sum has beyond its
    whole units, less than one unit. *)
Theorem two_stage_truncation (ctx : Context) (d : string) :
  DecIsValid (feePoolCommunityCoins ctx) = true ->
  DecIsValid (totalRewards ctx) = true ->
  let exact := DecAmountOf d (feePoolCommunityCoins ctx) +
               DecAmountOf d (totalRewards ctx) in
  AmountOf d (communityWhole ctx) + AmountOf d (rewardsWhole ctx) +
    AmountOf d (carry ctx) = exact / OneDec
  /\ DecAmountOf d (discarded ctx) = exact mod OneDec
  /\ 0 <= DecAmountOf d (discarded ctx) < OneDec
  /\ exact =
     (AmountOf d (communityWhole ctx) + AmountOf d (rewardsWhole ctx) +
      AmountOf d (carry ctx)) * OneDec + DecAmountOf d (discarded ctx)
  /\ AmountOf d (reconstructed ctx) =
     AmountOf d (CirculatingSupply (supplier ctx)) +
     AmountOf d (ModulesSupply (supplier ctx)) +
     AmountOf d (bondedSupply ctx) +
     AmountOf d (collectedFees ctx) +
     exact / OneDec.
Proof.
  intros Vc Vr exact.
  destruct (DecIsValid_parts _ Vc) as [Sc Nc].
  destruct (DecIsValid_parts _ Vr) as [Sr Nr].
  destruct (TruncateDecimal_amounts _ d Sc) as [Qc Rc].
  destruct (TruncateDecimal_amounts _ d Sr) as [Qr Rr].
  destruct (TruncateDecimal_sorted _ Sc) as [_ Src].
  destruct (TruncateDecimal_sorted _ Sr) as [_ Srr].
  assert (Srem : decSorted (remainders ctx) = true)
    by now apply decSorted_Add.
  destruct (TruncateDecimal_amounts _ d Srem) as [Qm Rm].
  fold (carry ctx) in Qm. fold (discarded ctx) in Rm.
  fold (communityWhole ctx) in Qc. fold (rewardsWhole ctx) in Qr.
  assert (Hrem : DecAmountOf d (remainders ctx) =
                 Z.rem (DecAmountOf d (feePoolCommunityCoins ctx)) OneDec +
                 Z.rem (DecAmountOf d (totalRewards ctx)) OneDec).
  { unfold remainders. now rewrite DecAmountOf_Add, Rc, Rr. }
  rewrite Hrem in Qm, Rm.
  destruct (two_stage_quot _ _ OneDec (Nc d) (Nr d) OneDec_pos) as [Hq Hr].
  assert (Hwhole : AmountOf d (communityWhole ctx) + AmountOf d (rewardsWhole ctx) +
                   AmountOf d (carry ctx) = exact / OneDec).
  { rewrite Qc, Qr, Qm. exact Hq. }
  assert (Hdisc : DecAmountOf d (discarded ctx) = exact mod OneDec).
  { rewrite Rm. exact Hr. }
  pose proof (Z.mod_pos_bound exact OneDec OneDec_pos) as Hb.
  pose proof (Z.div_mod exact OneDec) as Hdm.
  split; [exact Hwhole|]. split; [exact Hdisc|].
  split; [rewrite Hdisc; exact Hb|].
  split; [rewrite Hwhole, Hdisc; lia|].
  rewrite AmountOf_reconstructed. lia.
Qed.

Lemma two_stage_truncation_witness :
  AmountOf "atom" (communityWhole busy) + AmountOf "atom" (rewardsWhole busy) +
    AmountOf "atom" (carry busy) = 6
  /\ DecAmountOf "atom" (discarded busy) = NewDecWithPrec 1 1.
Proof.
  pose proof (two_stage_truncation busy "atom" eq_refl eq_refl) as H.
  destruct H as (Hw & Hd & _).
  split; [rewrite Hw | rewrite Hd]; reflexivity.
Defined.

(** X2: when the combined check passes, the recorded total supply holds, of
    every denomination, what all accounts hold together plus the bonded
    stake, the collected fees, and the whole units of the two pools; and
    the recorded initial vesting supply holds what the accounts still
    vesting were originally granted. *)
Theorem passing_total_covers_holdings (ctx : Context) (d : string) :
  fst (AllInvariants ctx) = None ->
  AmountOf d (TotalSupply (supplier ctx)) =
    sumOver (fun acc => AmountOf d (auth.GetCoins acc)) (accounts ctx) +
    (if String.eqb (bondDenom ctx) d then totalBondedTokens ctx else 0) +
    AmountOf d (collectedFees ctx) +
    AmountOf d (communityWhole ctx) +
    AmountOf d (rewardsWhole ctx) +
    AmountOf d (carry ctx)
  /\ AmountOf d (InitialVestingSupply (supplier ctx)) =
     sumOver (vestingOf (BlockTime ctx) d) (accounts ctx)
  /\ AmountOf d (TotalSupply (supplier ctx)) =
     AmountOf d (holdingsSum (accounts ctx)) +
     AmountOf d (bondedSupply ctx) +
     AmountOf d (collectedFees ctx) +
     AmountOf d (communityWhole ctx) +
     AmountOf d (rewardsWhole ctx) +
     AmountOf d (carry ctx).
Proof.
  intros H. apply AllInvariants_None in H. destruct H as [Hs Ht].
  apply SupplierInvariants_None in Hs. destruct Hs as (Ec & Em & Ev).
  apply TotalSupplyInvariant_None in Ht.
  destruct (AmountOf_iterate ctx d (accounts ctx) noAmounts) as (Hc & Hm & Hv).
  fold (aggregate ctx) in Hc, Hm, Hv. cbn [noAmounts circulatingAmount
    modulesAmount initialVestingAmount AmountOf] in Hc, Hm, Hv.
  assert (Hh : AmountOf d (holdingsSum (accounts ctx)) =
               sumOver (fun acc => AmountOf d (auth.GetCoins acc)) (accounts ctx)).
  { unfold holdingsSum. rewrite holdings_fold. cbn [AmountOf]. lia. }
  rewrite Ht, Ev, Hh, AmountOf_reconstructed, Ec, Em, Hc, Hm, Hv.
  rewrite AmountOf_bondedSupply, sumOver_split.
  repeat split; lia.
Qed.

Lemma passing_total_covers_holdings_witness :
  AmountOf "atom" (TotalSupply (supplier busy)) = 42 + 0 + 1 + 2 + 3 + 1.
Proof.
  rewrite (proj1 (passing_total_covers_holdings busy "atom" eq_refl)).
  reflexivity.
Defined.

(** X3: the total-supply check sees the circulating and the modules supply of
    the record only through their sum.  A record that passes the combined
    check and then has coins moved between the two fields, their sum
    unchanged, still passes the total-supply check; it is the supplier
    check that fails, on the circulating supply. *)
Theorem misclassification_caught_by_supplier_check (ctx : Context)
    (circulating modules : Coins) :
  fst (AllInvariants ctx) = None ->
  Coins.Add circulating modules =
    Coins.Add (CirculatingSupply (supplier ctx)) (ModulesSupply (supplier ctx)) ->
  circulating <> CirculatingSupply (supplier ctx) ->
  let ctx' :=
    withSupplier ctx
      (withModulesSupply (withCirculatingSupply (supplier ctx) circulating)
         modules) in
  TotalSupplyInvariant ctx' = TotalSupplyInvariant ctx
  /\ fst (TotalSupplyInvariant ctx') = None
  /\ fst (AllInvariants ctx') =
     Some (Errorf circulatingFormat
             [circulating; CirculatingSupply (supplier ctx)]).
Proof.
  intros H Hsum Hneq ctx'.
  apply AllInvariants_None in H. destruct H as [Hs Ht].
  assert (Hrec : reconstructed ctx' = reconstructed ctx).
  { rewrite !reconstructed_parts. unfold ctx'.
    cbn [supplier withSupplier withModulesSupply withCirculatingSupply
         CirculatingSupply ModulesSupply].
    rewrite Hsum. reflexivity. }
  assert (Hrun : TotalSupplyInvariant ctx' = TotalSupplyInvariant ctx).
  { rewrite !TotalSupplyInvariant_run, Hrec. reflexivity. }
  split; [exact Hrun|]. split; [now rewrite Hrun|].
  rewrite AllInvariants_run, SupplierInvariants_run. cbn [fst snd].
  apply SupplierInvariants_None in Hs. destruct Hs as (Ec & _).
  change (aggregate ctx') with (aggregate ctx).
  rewrite supplierCheck_circulating.
  - cbn [fst]. rewrite <- Ec. reflexivity.
  - rewrite <- Ec. exact Hneq.
Qed.

Lemma misclassification_caught_by_supplier_check_witness :
  fst (AllInvariants
         (withSupplier Scenario.consistent
            (withModulesSupply
               (withCirculatingSupply (supplier Scenario.consistent)
                  (Scenario.atom 90))
               (Scenario.atom 60)))) =
  Some (Errorf circulatingFormat [Scenario.atom 90; Scenario.atom 100]).
Proof.
  apply (misclassification_caught_by_supplier_check Scenario.consistent
           (Scenario.atom 90) (Scenario.atom 60) eq_refl eq_refl).
  discriminate.
Defined.

(** X4: a failure of the combined check always carries two vectors that differ,
    the recorded one first and the computed one second, under the format of
    the field that disagrees; a total-supply failure comes only after the
    supplier check has passed.  The four formats are pairwise different. *)
Theorem failure_shape (ctx : Context) (e : Error) :
  fst (AllInvariants ctx) = Some e ->
  (exists recorded computed : Coins,
     args e = [recorded; computed] /\ recorded <> computed /\
     ((format e = circulatingFormat /\
       recorded = CirculatingSupply (supplier ctx) /\
       computed = circulatingAmount (aggregate ctx)) \/
      (format e = modulesFormat /\
       recorded = ModulesSupply (supplier ctx) /\
       computed = modulesAmount (aggregate ctx)) \/
      (format e = vestingFormat /\
       recorded = InitialVestingSupply (supplier ctx) /\
       computed = initialVestingAmount (aggregate ctx)) \/
      (format e = totalFormat /\
       recorded = TotalSupply (supplier ctx) /\
       computed = reconstructed ctx /\
       fst (SupplierInvariants ctx) = None)))
  /\ circulatingFormat <> modulesFormat
  /\ circulatingFormat <> vestingFormat
  /\ circulatingFormat <> totalFormat
  /\ modulesFormat <> vestingFormat
  /\ modulesFormat <> totalFormat
  /\ vestingFormat <> totalFormat.
Proof.
  intros H. split; [|repeat split; discriminate].
  rewrite AllInvariants_run in H.
  destruct (fst (SupplierInvariants ctx)) as [e'|] eqn:Hs; cbn [fst] in H.
  - injection H as <-. rewrite SupplierInvariants_run in Hs. cbn [fst] in Hs.
    unfold supplierCheck in Hs.
    destruct (Coins_eq_dec (CirculatingSupply (supplier ctx))
                (circulatingAmount (aggregate ctx))) as [Ec|Nc].
    + destruct (Coins_eq_dec (ModulesSupply (supplier ctx))
                  (modulesAmount (aggregate ctx))) as [Em|Nm].
      * destruct (Coins_eq_dec (InitialVestingSupply (supplier ctx))
                    (initialVestingAmount (aggregate ctx))) as [Ev|Nv];
          [discriminate|].
        injection Hs as <-. eexists _, _. split; [reflexivity|].
        split; [exact Nv|]. right. right. left. repeat split.
      * injection Hs as <-. eexists _, _. split; [reflexivity|].
        split; [exact Nm|]. right. left. repeat split.
    + injection Hs as <-. eexists _, _. split; [reflexivity|].
      split; [exact Nc|]. left. repeat split.
  - rewrite TotalSupplyInvariant_run in H. cbn [fst] in H.
    unfold totalSupplyCheck in H.
    destruct (Coins_eq_dec (TotalSupply (supplier ctx)) (reconstructed ctx))
      as [Et|Nt]; [discriminate|].
    injection H as <-. eexists _, _. split; [reflexivity|].
    split; [exact Nt|]. right. right. right. repeat split.
Qed.

Lemma failure_shape_witness :
  exists recorded computed : Coins,
    recorded <> computed /\
    fst (AllInvariants Scenario.underRecorded) =
    Some (Errorf circulatingFormat [recorded; computed]).
Proof.
  destruct (failure_shape Scenario.underRecorded
              (Errorf circulatingFormat [Scenario.atom 99; Scenario.atom 100])
              eq_refl) as [(recorded & computed & Ha & Hne & _) _].
  exists recorded, computed. split; [exact Hne|].
  cbn [args] in Ha. rewrite <- Ha. reflexivity.
Defined.

(** X5: the total-supply check notices every change of the bonded total, of the
    collected fees and of the recorded total: once it passes, another
    bonded amount, fees grown by a valid non-empty vector, or a recorded
    total grown by such a vector, make it fail. *)
Theorem total_supply_check_sensitive (ctx : Context) :
  fst (TotalSupplyInvariant ctx) = None ->
  (forall tokens : Z,
     tokens <> totalBondedTokens ctx ->
     fst (TotalSupplyInvariant (withBonded ctx (bondDenom ctx) tokens)) <> None)
  /\ (forall delta : Coins,
        IsValid delta = true -> delta <> [] ->
        fst (TotalSupplyInvariant
               (withCollectedFees ctx (Coins.Add (collectedFees ctx) delta))) <>
        None)
  /\ (forall delta : Coins,
        IsValid delta = true -> delta <> [] ->
        fst (TotalSupplyInvariant
               (withSupplier ctx
                  (withTotalSupply (supplier ctx)
                     (Coins.Add (TotalSupply (supplier ctx)) delta)))) =
        Some (Errorf totalFormat
                [Coins.Add (TotalSupply (supplier ctx)) delta;
                 reconstructed ctx])).
Proof.
  intros H. apply TotalSupplyInvariant_None in H. split; [|split].
  2:{ intros delta V N Hpass. apply TotalSupplyInvariant_None in Hpass.
      cbn [supplier withCollectedFees] in Hpass. rewrite H in Hpass.
      destruct delta as [|c rest]; [now apply N|].
      apply andb_true_iff in V. destruct V as [S P].
      cbn [sorted] in S. cbn [forallb] in P.
      apply andb_true_iff in P. destruct P as [P _]. apply Z.ltb_lt in P.
      apply (f_equal (AmountOf (Denom c))) in Hpass.
      rewrite !AmountOf_reconstructed, !AmountOf_bondedSupply in Hpass.
      cbn [supplier withCollectedFees bondDenom totalBondedTokens collectedFees]
        in Hpass.
      change (communityWhole (withCollectedFees ctx
                (Coins.Add (collectedFees ctx) (c :: rest))))
        with (communityWhole ctx) in Hpass.
      change (rewardsWhole (withCollectedFees ctx
                (Coins.Add (collectedFees ctx) (c :: rest))))
        with (rewardsWhole ctx) in Hpass.
      change (carry (withCollectedFees ctx
                (Coins.Add (collectedFees ctx) (c :: rest))))
        with (carry ctx) in Hpass.
      rewrite AmountOf_Add, (AmountOf_head _ _ S) in Hpass. lia. }
  - intros tokens Hneq Hpass. apply TotalSupplyInvariant_None in Hpass.
    cbn [supplier withBonded] in Hpass. rewrite H in Hpass.
    assert (Ha : AmountOf (bondDenom ctx) (reconstructed ctx) =
                 AmountOf (bondDenom ctx)
                   (reconstructed (withBonded ctx (bondDenom ctx) tokens)))
      by now rewrite Hpass.
    rewrite !AmountOf_reconstructed, !AmountOf_bondedSupply in Ha.
    cbn [supplier withBonded bondDenom totalBondedTokens collectedFees] in Ha.
    rewrite String.eqb_refl in Ha.
    change (communityWhole (withBonded ctx (bondDenom ctx) tokens))
      with (communityWhole ctx) in Ha.
    change (rewardsWhole (withBonded ctx (bondDenom ctx) tokens))
      with (rewardsWhole ctx) in Ha.
    change (carry (withBonded ctx (bondDenom ctx) tokens))
      with (carry ctx) in Ha.
    lia.
  - intros delta V N. rewrite TotalSupplyInvariant_run. cbn [fst].
    change (reconstructed
              (withSupplier ctx
                 (withTotalSupply (supplier ctx)
                    (Coins.Add (TotalSupply (supplier ctx)) delta))))
      with (reconstructed ctx).
    cbn [supplier withSupplier withTotalSupply TotalSupply].
    unfold totalSupplyCheck.
    destruct (Coins_eq_dec (Coins.Add (TotalSupply (supplier ctx)) delta)
                (reconstructed ctx)) as [E|]; [|reflexivity].
    exfalso. rewrite <- H in E. revert E.
    apply Add_valid_changes; assumption.
Qed.

Lemma total_supply_check_sensitive_witness :
  fst (TotalSupplyInvariant (withBonded busy "stake" 8)) <> None.
Proof.
  apply (proj1 (total_supply_check_sensitive busy eq_refl)).
  discriminate.
Defined.

(** X6: with nothing bonded the bond denomination plays no role: the bonded
    supply is the empty vector, and the total-supply check answers the same
    under any denomination. *)
Theorem nothing_bonded (ctx : Context) (denom : string) :
  totalBondedTokens ctx = 0 ->
  bondedSupply ctx = []
  /\ TotalSupplyInvariant (withBonded ctx denom 0) = TotalSupplyInvariant ctx.
Proof.
  intros H.
  assert (Hb : bondedSupply ctx = []).
  { unfold bondedSupply. rewrite H. reflexivity. }
  split; [exact Hb|].
  rewrite !TotalSupplyInvariant_run, !reconstructed_parts, Hb.
  reflexivity.
Qed.

Lemma nothing_bonded_witness :
  TotalSupplyInvariant (withBonded Scenario.consistent "stake" 0) =
  TotalSupplyInvariant Scenario.consistent.
Proof.
  apply (proj2 (nothing_bonded Scenario.consistent "stake" eq_refl)).
Defined.

(** *** The sums as Coin Vectors *)

Lemma nonZero_In (cs : Coins) (c : Coin) :
  nonZero cs = true -> In c cs -> Amount c <> 0.
Proof.
  unfold nonZero. rewrite forallb_forall. intros H Hin.
  specialize (H c Hin). unfold Coin_IsZero in H.
  destruct (Z.eqb_spec (Amount c) 0); [discriminate|assumption].
Qed.

Lemma positive_appendNonZero (c : Coin) (cs : Coins) :
  0 <= Amount c -> positive cs = true -> positive (appendNonZero c cs) = true.
Proof.
  intros Hc H. unfold appendNonZero, Coin_IsZero.
  destruct (Z.eqb_spec (Amount c) 0) as [|N]; [exact H|].
  unfold positive. cbn [forallb]. apply andb_true_iff. split; [|exact H].
  apply Z.ltb_lt. lia.
Qed.

Lemma positive_cons (c : Coin) (cs : Coins) :
  positive (c :: cs) = true <-> 0 < Amount c /\ positive cs = true.
Proof.
  unfold positive. cbn [forallb]. rewrite andb_true_iff, Z.ltb_lt. tauto.
Qed.

Lemma positive_removeZeroCoins (cs : Coins) :
  positive cs = true -> positive (removeZeroCoins cs) = true.
Proof.
  induction cs as [|c rest IH]; [trivial|]. intros H.
  apply positive_cons in H. destruct H as [Hc Hrest].
  cbn [removeZeroCoins]. apply positive_appendNonZero; [lia|auto].
Qed.

Lemma positive_Add (a b : Coins) :
  positive a = true -> positive b = true -> positive (Coins.Add a b) = true.
Proof.
  revert b. induction a as [|ca ta IHa]; intros b Ha Hb.
  - rewrite Add_nil_l. now apply positive_removeZeroCoins.
  - induction b as [|cb tb IHb].
    + rewrite Add_nil_r. now apply positive_removeZeroCoins.
    + rewrite Add_cons_cons.
      pose proof (proj1 (positive_cons _ _) Ha) as [Pa Pta].
      pose proof (proj1 (positive_cons _ _) Hb) as [Pb Ptb].
      destruct (String.compare (Denom ca) (Denom cb));
        apply positive_appendNonZero; cbn [Amount]; try lia; auto.
Qed.

Lemma IsValid_parts (cs : Coins) :
  IsValid cs = true <-> sorted cs = true /\ positive cs = true.
Proof. unfold IsValid, positive. apply andb_true_iff. Qed.

Lemma IsValid_Add (a b : Coins) :
  IsValid a = true -> IsValid b = true -> IsValid (Coins.Add a b) = true.
Proof.
  rewrite !IsValid_parts. intros [Sa Pa] [Sb Pb].
  split; [now apply sorted_Add | now apply positive_Add].
Qed.

Lemma IsValid_process (ctx : Context) (st : Amounts) (acc : auth.Account) :
  validAccount acc = true ->
  IsValid (circulatingAmount st) = true /\
  IsValid (modulesAmount st) = true /\
  IsValid (initialVestingAmount st) = true ->
  IsValid (circulatingAmount (fst (process ctx st acc))) = true /\
  IsValid (modulesAmount (fst (process ctx st acc))) = true /\
  IsValid (initialVestingAmount (fst (process ctx st acc))) = true.
Proof.
  unfold validAccount. rewrite andb_true_iff. intros [Hcoins Hvest] (Hc & Hm & Hv).
  rewrite process_circulating, process_modules, process_initialVesting.
  destruct (auth.isModuleAccount acc);
    destruct (auth.asVestingAccount acc) as [vacc|];
    try destruct (BlockTime ctx <? auth.GetEndTime vacc);
    repeat split; auto using IsValid_Add.
Qed.

Lemma IsValid_iterate (ctx : Context) (accs : list auth.Account) (st : Amounts) :
  forallb validAccount accs = true ->
  IsValid (circulatingAmount st) = true /\
  IsValid (modulesAmount st) = true /\
  IsValid (initialVestingAmount st) = true ->
  IsValid (circulatingAmount (iterate (process ctx) accs st)) = true /\
  IsValid (modulesAmount (iterate (process ctx) accs st)) = true /\
  IsValid (initialVestingAmount (iterate (process ctx) accs st)) = true.
Proof.
  revert st. induction accs as [|acc rest IH]; intros st Hv H; [exact H|].
  cbn [forallb] in Hv. apply andb_true_iff in Hv. destruct Hv as [Ha Hrest].
  rewrite iterate_cons. apply IH; [exact Hrest|]. now apply IsValid_process.
Qed.

(** X7: the three sums and the rebuilt total never hold a zero entry, whatever
    the accounts hold; so a record one of whose compared fields lists a
    coin of amount zero cannot pass the check that compares it, even when
    it agrees with the sum on every denomination. *)
Theorem zero_entry_never_passes (ctx : Context) (c : Coin) :
  Amount c = 0 ->
  (In c (CirculatingSupply (supplier ctx)) \/
   In c (ModulesSupply (supplier ctx)) \/
   In c (InitialVestingSupply (supplier ctx)) ->
   fst (SupplierInvariants ctx) <> None)
  /\ (In c (TotalSupply (supplier ctx)) ->
      fst (TotalSupplyInvariant ctx) <> None)
  /\ nonZeroAmounts (aggregate ctx) = true
  /\ nonZero (reconstructed ctx) = true.
Proof.
  intros Hz.
  pose proof (aggregate_nonZero ctx) as Hn.
  assert (Hr : nonZero (reconstructed ctx) = true).
  { rewrite reconstructed_parts. apply nonZero_Add. }
  split; [|split; [|split; [exact Hn|exact Hr]]].
  - intros Hin Hpass. apply SupplierInvariants_None in Hpass.
    destruct Hpass as (Ec & Em & Ev).
    unfold nonZeroAmounts in Hn. rewrite !andb_true_iff in Hn.
    destruct Hn as [[Nc Nm] Nv].
    rewrite <- Ec in Nc. rewrite <- Em in Nm. rewrite <- Ev in Nv.
    destruct Hin as [Hin|[Hin|Hin]];
      [apply (nonZero_In _ _ Nc Hin) | apply (nonZero_In _ _ Nm Hin) |
       apply (nonZero_In _ _ Nv Hin)]; exact Hz.
  - intros Hin Hpass. apply TotalSupplyInvariant_None in Hpass.
    rewrite <- Hpass in Hr. now apply (nonZero_In _ _ Hr Hin).
Qed.

Lemma zero_entry_never_passes_witness :
  fst (SupplierInvariants
         (withSupplier Scenario.consistent
            (withCirculatingSupply (supplier Scenario.consistent)
               [NewCoin "atom" 100; NewCoin "stake" 0]))) <> None.
Proof.
  apply (proj1 (zero_entry_never_passes
                  (withSupplier Scenario.consistent
                     (withCirculatingSupply (supplier Scenario.consistent)
                        [NewCoin "atom" 100; NewCoin "stake" 0]))
                  (NewCoin "stake" 0) eq_refl)).
  left. right. left. reflexivity.
Defined.

(** X8: for accounts with valid coin vectors the three sums of the account
    fold are valid Coin Vectors: ordered by denomination, every amount
    positive. *)
Theorem sums_are_valid (ctx : Context) :
  forallb validAccount (accounts ctx) = true ->
  IsValid (circulatingAmount (aggregate ctx)) = true /\
  IsValid (modulesAmount (aggregate ctx)) = true /\
  IsValid (initialVestingAmount (aggregate ctx)) = true.
Proof.
  intros Hv. apply IsValid_iterate; [exact Hv|]. repeat split.
Qed.

Lemma sums_are_valid_witness :
  IsValid (circulatingAmount (aggregate busy)) = true /\
  IsValid (modulesAmount (aggregate busy)) = true /\
  IsValid (initialVestingAmount (aggregate busy)) = true.
Proof.
  apply (sums_are_valid busy). reflexivity.
Defined.

(** *** Vesting over time *)

Lemma iterate_vested (ctx : Context) (accs : list auth.Account) (st : Amounts) :
  allVested (BlockTime ctx) accs = true ->
  initialVestingAmount (iterate (process ctx) accs st) = initialVestingAmount st.
Proof.
  revert st. induction accs as [|acc rest IH]; intros st H; [reflexivity|].
  unfold allVested in H. cbn [forallb] in H.
  apply andb_true_iff in H. destruct H as [Ha Hrest].
  rewrite iterate_cons, (IH _ Hrest), process_initialVesting.
  destruct (auth.asVestingAccount acc) as [vacc|]; [|reflexivity].
  apply Z.leb_le in Ha. apply Z.ltb_ge in Ha. now rewrite Ha.
Qed.

Lemma iterate_holdings (ctx1 ctx2 : Context) (accs : list auth.Account)
    (st1 st2 : Amounts) :
  circulatingAmount st1 = circulatingAmount st2 ->
  modulesAmount st1 = modulesAmount st2 ->
  circulatingAmount (iterate (process ctx1) accs st1) =
    circulatingAmount (iterate (process ctx2) accs st2) /\
  modulesAmount (iterate (process ctx1) accs st1) =
    modulesAmount (iterate (process ctx2) accs st2).
Proof.
  revert st1 st2. induction accs as [|acc rest IH]; intros st1 st2 Hc Hm.
  - split; assumption.
  - rewrite !iterate_cons. apply IH.
    + now rewrite !process_circulating, Hc.
    + now rewrite !process_modules, Hm.
Qed.

Lemma AmountOf_positive (cs : Coins) (d : string) :
  positive cs = true -> 0 <= AmountOf d cs.
Proof.
  induction cs as [|c rest IH]; [cbn; lia|]. intros H.
  apply positive_cons in H. destruct H as [Hc Hrest]. specialize (IH Hrest).
  cbn [AmountOf]. destruct (String.eqb (Denom c) d); lia.
Qed.

Lemma vestingOf_antitone (t1 t2 : Z) (d : string) (acc : auth.Account) :
  validAccount acc = true -> t1 <= t2 ->
  vestingOf t2 d acc <= vestingOf t1 d acc.
Proof.
  unfold validAccount, vestingOf. rewrite andb_true_iff. intros [_ Hv] Ht.
  destruct (auth.asVestingAccount acc) as [vacc|]; [|lia].
  apply IsValid_parts in Hv. destruct Hv as [_ Hp].
  pose proof (AmountOf_positive _ d Hp).
  destruct (Z.ltb_spec t2 (auth.GetEndTime vacc));
    destruct (Z.ltb_spec t1 (auth.GetEndTime vacc)); lia.
Qed.

Lemma sumOver_le (f g : auth.Account -> Z) (accs : list auth.Account) :
  (forall acc, In acc accs -> f acc <= g acc) ->
  sumOver f accs <= sumOver g accs.
Proof.
  induction accs as [|acc rest IH]; intros H; cbn [sumOver fold_right]; [lia|].
  fold (sumOver f rest). fold (sumOver g rest).
  pose proof (H acc (or_introl eq_refl)).
  assert (sumOver f rest <= sumOver g rest)
    by (apply IH; intros a Ha; apply H; now right).
  lia.
Qed.

(** X9: the block time enters the sums through the initial-vesting sum only.
    The circulating and the modules sum are the same at every block time;
    the initial-vesting sum of valid accounts does not grow as the block
    time advances, and once the end time of every vesting account has come
    it is empty, so that the supplier check passes only with an empty
    recorded initial vesting supply. *)
Theorem vesting_over_time (ctx : Context) :
  (forall t : Z,
     circulatingAmount (aggregate (withBlockTime ctx t)) =
       circulatingAmount (aggregate ctx) /\
     modulesAmount (aggregate (withBlockTime ctx t)) =
       modulesAmount (aggregate ctx))
  /\ (forall (t : Z) (d : string),
        forallb validAccount (accounts ctx) = true ->
        BlockTime ctx <= t ->
        AmountOf d (initialVestingAmount (aggregate (withBlockTime ctx t))) <=
        AmountOf d (initialVestingAmount (aggregate ctx)))
  /\ (allVested (BlockTime ctx) (accounts ctx) = true ->
      initialVestingAmount (aggregate ctx) = [] /\
      (fst (SupplierInvariants ctx) = None ->
       InitialVestingSupply (supplier ctx) = [])).
Proof.
  split; [|split].
  - intros t. unfold aggregate. cbn [accounts withBlockTime].
    now apply iterate_holdings.
  - intros t d Hv Ht. unfold aggregate.
    destruct (AmountOf_iterate (withBlockTime ctx t) d
                (accounts (withBlockTime ctx t)) noAmounts) as (_ & _ & H1).
    destruct (AmountOf_iterate ctx d (accounts ctx) noAmounts) as (_ & _ & H2).
    rewrite H1, H2. cbn [accounts withBlockTime BlockTime].
    apply Z.add_le_mono_l. apply sumOver_le. intros acc Hin.
    apply vestingOf_antitone; [|exact Ht].
    rewrite forallb_forall in Hv. now apply Hv.
  - intros Hall.
    assert (He : initialVestingAmount (aggregate ctx) = [])
      by (unfold aggregate; now rewrite iterate_vested).
    split; [exact He|]. intros Hpass.
    apply SupplierInvariants_None in Hpass. destruct Hpass as (_ & _ & Ev).
    now rewrite Ev.
Qed.

Lemma vesting_over_time_witness :
  initialVestingAmount (aggregate (withBlockTime busy 100)) = [] /\
  AmountOf "atom" (initialVestingAmount (aggregate (withBlockTime busy 50))) <=
  AmountOf "atom" (initialVestingAmount (aggregate busy)).
Proof.
  split.
  - apply (proj2 (proj2 (vesting_over_time (withBlockTime busy 100)))).
    reflexivity.
  - apply (proj1 (proj2 (vesting_over_time busy))); [reflexivity|].
    discriminate.
Defined.

(** *** Accounts that hold nothing *)

Lemma Add_nil_nonZero (cs : Coins) : nonZero cs = true -> Coins.Add cs [] = cs.
Proof. intros H. rewrite Add_nil_r. now apply removeZeroCoins_nonZero. Qed.

(** X10: an account with no coins and nothing still vesting leaves the three
    sums as they are, wherever it stands in the population: the sums, and
    with them the outcome of the supplier check, are those of the
    population without it. *)
Theorem empty_account_is_neutral (ctx : Context) (l1 l2 : list auth.Account)
    (acc : auth.Account) :
  auth.GetCoins acc = [] ->
  (forall vacc : auth.VestingAccount,
     auth.asVestingAccount acc = Some vacc ->
     auth.GetEndTime vacc <= BlockTime ctx \/ auth.GetOriginalVesting vacc = []) ->
  aggregate (withAccounts ctx (l1 ++ acc :: l2)) =
    aggregate (withAccounts ctx (l1 ++ l2))
  /\ SupplierInvariants (withAccounts ctx (l1 ++ acc :: l2)) =
     SupplierInvariants (withAccounts ctx (l1 ++ l2)).
Proof.
  intros Hcoins Hvest.
  assert (E : aggregate (withAccounts ctx (l1 ++ acc :: l2)) =
              aggregate (withAccounts ctx (l1 ++ l2))).
  { unfold aggregate. cbn [accounts withAccounts].
    change (process (withAccounts ctx (l1 ++ acc :: l2))) with (process ctx).
    change (process (withAccounts ctx (l1 ++ l2))) with (process ctx).
    rewrite !iterate_app, iterate_cons. f_equal.
    pose proof (nonZero_iterate ctx l1 noAmounts eq_refl) as Hn.
    set (st := iterate (process ctx) l1 noAmounts) in *.
    unfold nonZeroAmounts in Hn. rewrite !andb_true_iff in Hn.
    destruct Hn as [[Nc Nm] Nv].
    assert (Hc : circulatingAmount (fst (process ctx st acc)) = circulatingAmount st).
    { rewrite process_circulating, Hcoins.
      destruct (auth.isModuleAccount acc); [reflexivity|now apply Add_nil_nonZero]. }
    assert (Hm : modulesAmount (fst (process ctx st acc)) = modulesAmount st).
    { rewrite process_modules, Hcoins.
      destruct (auth.isModuleAccount acc); [now apply Add_nil_nonZero|reflexivity]. }
    assert (Hv : initialVestingAmount (fst (process ctx st acc)) =
                 initialVestingAmount st).
    { rewrite process_initialVesting.
      destruct (auth.asVestingAccount acc) as [vacc|]; [|reflexivity].
      destruct (Hvest vacc eq_refl) as [Ht|Ho].
      - apply Z.ltb_ge in Ht. now rewrite Ht.
      - rewrite Ho. destruct (BlockTime ctx <? auth.GetEndTime vacc);
          [now apply Add_nil_nonZero|reflexivity]. }
    destruct (fst (process ctx st acc)) as [c m v], st as [c0 m0 v0].
    cbn in Hc, Hm, Hv. now subst. }
  split; [exact E|]. rewrite !SupplierInvariants_run, E. reflexivity.
Qed.

Lemma empty_account_is_neutral_witness :
  aggregate (withAccounts busy
               ([Scenario.basicAccount (Scenario.atom 1)] ++
                Scenario.vestingAccount [] (Scenario.atom 9) 10 ::
                [Scenario.moduleAccount (Scenario.atom 2)])) =
  aggregate (withAccounts busy
               ([Scenario.basicAccount (Scenario.atom 1)] ++
                [Scenario.moduleAccount (Scenario.atom 2)])).
Proof.
  apply (empty_account_is_neutral busy
           [Scenario.basicAccount (Scenario.atom 1)]
           [Scenario.moduleAccount (Scenario.atom 2)]
           (Scenario.vestingAccount [] (Scenario.atom 9) 10) eq_refl).
  intros vacc H. injection H as <-. left. discriminate.
Defined.

(** *** Transfers *)

Lemma validAccount_withCoins (acc : auth.Account) (coins : Coins) :
  validAccount acc = true -> IsValid coins = true ->
  validAccount (withCoins acc coins) = true.
Proof.
  unfold validAccount. rewrite !andb_true_iff. cbn [auth.GetCoins
    auth.asVestingAccount withCoins]. tauto.
Qed.

Lemma sumOver_cons (f : auth.Account -> Z) (acc : auth.Account)
    (rest : list auth.Account) :
  sumOver f (acc :: rest) = f acc + sumOver f rest.
Proof. reflexivity. Qed.

(** X11: a transfer between two accounts of the same kind, both module-owned or
    both not, leaves the three sums and the outcome of the supplier check
    as they are: when the two accounts hold together what they held
    before, all coin vectors being valid, the fold ends in the same
    vectors. *)
Theorem transfer_within_class (ctx : Context) (l1 l2 l3 : list auth.Account)
    (a b : auth.Account) (coinsA coinsB : Coins) :
  auth.isModuleAccount a = auth.isModuleAccount b ->
  forallb validAccount (l1 ++ a :: l2 ++ b :: l3) = true ->
  IsValid coinsA = true -> IsValid coinsB = true ->
  Coins.Add coinsA coinsB = Coins.Add (auth.GetCoins a) (auth.GetCoins b) ->
  aggregate (withAccounts ctx
               (l1 ++ withCoins a coinsA :: l2 ++ withCoins b coinsB :: l3)) =
    aggregate (withAccounts ctx (l1 ++ a :: l2 ++ b :: l3))
  /\ SupplierInvariants
       (withAccounts ctx
          (l1 ++ withCoins a coinsA :: l2 ++ withCoins b coinsB :: l3)) =
     SupplierInvariants (withAccounts ctx (l1 ++ a :: l2 ++ b :: l3)).
Proof.
  intros Hkind Hv Va Vb Hsum.
  assert (Hv' : forallb validAccount
                  (l1 ++ withCoins a coinsA :: l2 ++ withCoins b coinsB :: l3) = true).
  { rewrite forallb_app in *. cbn [forallb] in *. rewrite forallb_app in *.
    cbn [forallb] in *. rewrite !andb_true_iff in *.
    destruct Hv as (H1 & Ha & H2 & Hb & H3).
    repeat split; auto using validAccount_withCoins. }
  assert (E : aggregate (withAccounts ctx
                 (l1 ++ withCoins a coinsA :: l2 ++ withCoins b coinsB :: l3)) =
              aggregate (withAccounts ctx (l1 ++ a :: l2 ++ b :: l3))).
  { apply Amounts_ext; try apply aggregate_nonZero;
      try (now apply aggregate_sorted).
    intros d. unfold aggregate.
    destruct (AmountOf_iterate
                (withAccounts ctx
                   (l1 ++ withCoins a coinsA :: l2 ++ withCoins b coinsB :: l3)) d
                (l1 ++ withCoins a coinsA :: l2 ++ withCoins b coinsB :: l3)
                noAmounts) as (C1 & M1 & I1).
    destruct (AmountOf_iterate (withAccounts ctx (l1 ++ a :: l2 ++ b :: l3)) d
                (l1 ++ a :: l2 ++ b :: l3) noAmounts) as (C2 & M2 & I2).
    cbn [accounts withAccounts]. rewrite C1, M1, I1, C2, M2, I2.
    cbn [BlockTime withAccounts].
    rewrite !sumOver_app, !sumOver_cons, !sumOver_app, !sumOver_cons.
    apply (f_equal (AmountOf d)) in Hsum. rewrite !AmountOf_Add in Hsum.
    unfold circulatingOf, modulesOf, vestingOf.
    cbn [auth.GetCoins auth.asVestingAccount auth.isModuleAccount withCoins].
    rewrite Hkind. destruct (auth.isModuleAccount b); repeat split; lia. }
  split; [exact E|]. rewrite !SupplierInvariants_run, E. reflexivity.
Qed.

Lemma transfer_within_class_witness :
  aggregate (withAccounts busy
               ([] ++ withCoins (Scenario.basicAccount (Scenario.atom 100))
                        (Scenario.atom 60) ::
                [Scenario.moduleAccount (Scenario.atom 50)] ++
                withCoins (Scenario.basicAccount (Scenario.atom 5))
                  (Scenario.atom 45) :: [])) =
  aggregate (withAccounts busy
               ([] ++ Scenario.basicAccount (Scenario.atom 100) ::
                [Scenario.moduleAccount (Scenario.atom 50)] ++
                Scenario.basicAccount (Scenario.atom 5) :: [])).
Proof.
  apply (transfer_within_class busy [] [Scenario.moduleAccount (Scenario.atom 50)] []
           (Scenario.basicAccount (Scenario.atom 100))
           (Scenario.basicAccount (Scenario.atom 5))
           (Scenario.atom 60) (Scenario.atom 45));
    reflexivity.
Defined.

(** *** Registration *)

Lemma AssertInvariants_app (ck more : crisis.Keeper) (ctx : Context) :
  crisis.AssertInvariants (ck ++ more) ctx =
  (err <- crisis.AssertInvariants ck ctx ;;
   match err with
   | Some _ => ret err
   | None => crisis.AssertInvariants more ctx
   end).
Proof.
  induction ck as [|ir rest IH]; cbn [app crisis.AssertInvariants].
  - unfold bind, ret. now destruct (crisis.AssertInvariants more ctx).
  - rewrite IH. unfold bind, ret.
    destruct (crisis.Invar ir ctx) as [[e|] t]; [now rewrite !app_nil_r|].
    destruct (crisis.AssertInvariants rest ctx) as [[e|] t'].
    + now rewrite !app_nil_r.
    + destruct (crisis.AssertInvariants more ctx) as [r t''].
      now rewrite app_assoc.
Qed.

(** X12: [RegisterInvariants] adds two routes after those already registered,
    "supplier" and then "total-supply", both under the name of the module.
    Running the registered checks in order up to the first failure is
    running the earlier routes and then [AllInvariants]: the combined check
    runs what is registered, in registration order, with the same outcome
    and the same keeper calls. *)
Theorem RegisterInvariants_routes (ModuleName : string) (ck : crisis.Keeper)
    (ctx : Context) :
  map (fun ir => (crisis.ModuleName ir, crisis.Route ir))
      (registration.RegisterInvariants ModuleName ck) =
    map (fun ir => (crisis.ModuleName ir, crisis.Route ir)) ck ++
    [(ModuleName, "supplier"%string); (ModuleName, "total-supply"%string)]
  /\ firstn (List.length ck) (registration.RegisterInvariants ModuleName ck) = ck
  /\ crisis.AssertInvariants (registration.RegisterInvariants ModuleName ck) ctx =
     (err <- crisis.AssertInvariants ck ctx ;;
      match err with
      | Some _ => ret err
      | None => AllInvariants ctx
      end)
  /\ crisis.AssertInvariants (registration.RegisterInvariants ModuleName []) ctx =
     AllInvariants ctx.
Proof.
  assert (Hreg : registration.RegisterInvariants ModuleName ck =
                 ck ++ [crisis.NewInvarRoute ModuleName "supplier" SupplierInvariants;
                        crisis.NewInvarRoute ModuleName "total-supply"
                          TotalSupplyInvariant]).
  { unfold registration.RegisterInvariants, crisis.RegisterRoute.
    now rewrite <- app_assoc. }
  split; [|split; [|split]].
  - rewrite Hreg, map_app. reflexivity.
  - rewrite Hreg, firstn_app, Nat.sub_diag, firstn_all. cbn [firstn].
    apply app_nil_r.
  - rewrite Hreg, AssertInvariants_app. reflexivity.
  - reflexivity.
Qed.

End MoreProperties.
